(** * buildBook.py: wiki outline to LaTeX book

    A shallow embedding of the table-of-contents pipeline of
    [buildBook.py]: [parse_list_items] (the ToC tree builder),
    [add_examples_to_content] (the transclusion resolver) and
    [process_structure] (the tree renderer), together with the pieces of
    Python they rely on ([str.strip], [str.replace], [str.startswith],
    list indexing, and the three regular expressions of the script).

    Conventions.
    - A Python [str] is a list of Unicode code points ([pystr]).
    - Python [int]s are [Z].
    - An exception is a value of [exn]; a computation that may raise
      returns [res A].
    - Calls to [print] only write diagnostics to the console and are left
      out.
    - Library functions whose behaviour is not part of the script
      ([urljoin], [pypandoc.convert_text], the remote fetch, the
      serialisation of a tag, the Unicode alphanumeric table) are Section
      variables. *)

From Stdlib Require Import String Ascii.
From Stdlib Require Import List ZArith NArith Lia Bool.
Import ListNotations.

Set Implicit Arguments.
Set Warnings "-register-all".

(* ================================================================== *)
(** * Python strings *)
(* ================================================================== *)

Module Py.

(** A code point. *)
Definition char := N.
Definition pystr := list char.

(** ASCII literals of the source. *)
Definition lit (s : string) : pystr :=
  map N_of_ascii (list_ascii_of_string s).
Arguments lit s%_string.

Definition newline : char := 10%N.
Definition space : char := 32%N.
Definition hyphen : char := 45%N.
Definition underscore : char := 95%N.
Definition lbrace : char := 123%N.
Definition rbrace : char := 125%N.
Definition colon : char := 58%N.
Definition slash : char := 47%N.

Fixpoint str_eqb (a b : pystr) : bool :=
  match a, b with
  | [], [] => true
  | x :: a', y :: b' => N.eqb x y && str_eqb a' b'
  | _, _ => false
  end.

(** [c.isspace()]: the code points Python treats as whitespace, which
    are also the ones [\s] matches in a [str] pattern. *)
Definition isspace (c : char) : bool :=
  ((9 <=? c) && (c <=? 13) || (28 <=? c) && (c <=? 32)
   || (c =? 133) || (c =? 160) || (c =? 5760)
   || (8192 <=? c) && (c <=? 8202)
   || (c =? 8232) || (c =? 8233) || (c =? 8239) || (c =? 8287)
   || (c =? 12288))%N.

Fixpoint lstrip (s : pystr) : pystr :=
  match s with
  | c :: r => if isspace c then lstrip r else s
  | [] => []
  end.

Definition rstrip (s : pystr) : pystr := rev (lstrip (rev s)).

(** [s.strip()] *)
Definition strip (s : pystr) : pystr := rstrip (lstrip s).

(** [s.startswith(p)] *)
Fixpoint startswith (s p : pystr) {struct p} : bool :=
  match p, s with
  | [], _ => true
  | x :: p', y :: s' => N.eqb x y && startswith s' p'
  | _ :: _, [] => false
  end.

(** The scan of [s.replace(old, new)] for a non-empty [old]: left to
    right, occurrences do not overlap.  [skip] counts the characters of
    the occurrence just replaced that are still to be passed over. *)
Fixpoint replace_from (old new : pystr) (skip : nat) (s : pystr) : pystr :=
  match s with
  | [] => []
  | c :: r =>
      match skip with
      | S k => replace_from old new k r
      | O =>
          if startswith s old
          then new ++ replace_from old new (length old - 1) r
          else c :: replace_from old new 0 r
      end
  end.

(** [s.replace(old, new)].  With an empty [old] Python puts [new]
    before every character and at the end. *)
Definition replace (s old new : pystr) : pystr :=
  match old with
  | [] => new ++ flat_map (fun c => c :: new) s
  | _ :: _ => replace_from old new 0 s
  end.

(** [s * n] for a string [s] and an [int] [n]: empty when [n <= 0]. *)
Definition repeat_str (s : pystr) (n : Z) : pystr :=
  concat (repeat s (Z.to_nat n)).

(** [l[i]] on a list: negative indices count from the end, anything
    else out of range raises [IndexError] (here [None]). *)
Definition getitem (A : Type) (l : list A) (i : Z) : option A :=
  let n := Z.of_nat (length l) in
  if (0 <=? i)%Z then nth_error l (Z.to_nat i)
  else if (- n <=? i)%Z then nth_error l (Z.to_nat (n + i))
  else None.

End Py.

Import Py.

(** Exceptions the modelled code can raise. *)
Inductive exn := IndexError | AttributeError.

Inductive res (A : Type) :=
| OK (a : A)
| Raise (e : exn).
Arguments Raise {A} e.

Definition bind (A B : Type) (m : res A) (k : A -> res B) : res B :=
  match m with
  | OK a => k a
  | Raise e => Raise e
  end.

Notation "x <- m ;; k" := (bind m (fun x => k))
  (at level 61, m at next level, right associativity).

(* ================================================================== *)
(** * Filesystem-safe identifiers (lines 204-206) *)
(* ================================================================== *)

Section SafeTitle.

(** [c.isalnum()], the Unicode table behind [\w]. *)
Variable isalnum : char -> bool.

(** [\w] and [\s] of a [str] pattern. *)
Definition re_word (c : char) : bool := isalnum c || N.eqb c underscore.
Definition re_space (c : char) : bool := isspace c.

(** The class [[^\w\s-]] is what the first substitution deletes; its
    complement is what stays. *)
Definition kept (c : char) : bool :=
  re_word c || re_space c || N.eqb c hyphen.

(** The class [[-\s]]. *)
Definition separator (c : char) : bool := N.eqb c hyphen || re_space c.

(** A character of an identifier: a word character that is no
    separator. *)
Definition ident_char (c : char) : Prop :=
  re_word c = true /\ separator c = false.

(** [re.sub(r"[^\w\s-]", "", title)] *)
Definition sub_unsafe (title : pystr) : pystr := filter kept title.

(** [re.sub(r"[-\s]+", "_", s)]: every maximal run of separators
    becomes one underscore.  [in_run] says that the previous character
    belonged to the run being replaced. *)
Fixpoint sub_runs (in_run : bool) (s : pystr) : pystr :=
  match s with
  | [] => []
  | c :: r =>
      if separator c
      then (if in_run then sub_runs true r
            else underscore :: sub_runs true r)
      else c :: sub_runs false r
  end.

(** The two assignments to [safe_title]. *)
Definition safe_title (title : pystr) : pystr :=
  sub_runs false (sub_unsafe title).

(** [filename = f"{safe_title}.tex"] *)
Definition filename (title : pystr) : pystr :=
  safe_title title ++ lit ".tex".

End SafeTitle.

(* ================================================================== *)
(** * The outline as parsed HTML (BeautifulSoup) *)
(* ================================================================== *)

(** A parsed document: text nodes and tags with their attributes and
    [contents]. *)
Inductive node :=
| NavigableString (s : pystr)
| Tag (name : pystr) (attrs : list (pystr * pystr)) (contents : list node).

(** [tag.contents] *)
Definition contents_of (n : node) : list node :=
  match n with
  | NavigableString _ => []
  | Tag _ _ cs => cs
  end.

Definition is_tag (name : pystr) (n : node) : bool :=
  match n with
  | NavigableString _ => false
  | Tag nm _ _ => str_eqb nm name
  end.

(** [tag.find_all(name, recursive=False)]: the children that are tags
    called [name], in document order. *)
Definition find_all_children (n : node) (name : pystr) : list node :=
  filter (is_tag name) (contents_of n).

Fixpoint first_some (A B : Type) (f : A -> option B) (l : list A) : option B :=
  match l with
  | [] => None
  | x :: r =>
      match f x with
      | Some y => Some y
      | None => first_some f r
      end
  end.

(** The first tag called [name] among [n] and its descendants, in
    document order. *)
Fixpoint find_self (name : pystr) (n : node) : option node :=
  match n with
  | NavigableString _ => None
  | Tag nm _ cs =>
      if str_eqb nm name then Some n
      else first_some (find_self name) cs
  end.

(** [tag.find(name)]: the first descendant called [name], or [None]. *)
Definition find (n : node) (name : pystr) : option node :=
  first_some (find_self name) (contents_of n).

(** [tag.get(key, default)] on the attribute dictionary. *)
Fixpoint dict_get (d : list (pystr * pystr)) (key default : pystr) : pystr :=
  match d with
  | [] => default
  | (k, v) :: r => if str_eqb k key then v else dict_get r key default
  end.

Definition tag_get (n : node) (key default : pystr) : pystr :=
  match n with
  | NavigableString _ => default
  | Tag _ attrs _ => dict_get attrs key default
  end.

(** Nesting height, the recursion measure of the parser. *)
Fixpoint height (n : node) : nat :=
  match n with
  | NavigableString _ => 0
  | Tag _ _ cs => S (list_max (map height cs))
  end.

(** One entry of the outline: the dictionary built in [parse_list_items]. *)
Inductive item := Item {
  title : pystr;
  url : pystr;
  hasLink : bool;
  depth : Z;
  children : list item
}.

Definition WIKI_BASE_URL : pystr := lit "https://style.miraheze.org".

(** A loop that collects results, stops at the first exception and
    gives [None] when the recursion budget is used up. *)
Fixpoint for_each (A B : Type) (f : A -> option (res B)) (l : list A)
  : option (res (list B)) :=
  match l with
  | [] => Some (OK [])
  | x :: r =>
      match f x with
      | None => None
      | Some (Raise e) => Some (Raise e)
      | Some (OK y) =>
          match for_each f r with
          | None => None
          | Some (Raise e) => Some (Raise e)
          | Some (OK ys) => Some (OK (y :: ys))
          end
      end
  end.

Section Outline.

(** [str(tag)], the markup BeautifulSoup prints for a tag. *)
Variable tag_markup : node -> pystr.

(** [urllib.parse.urljoin] *)
Variable urljoin : pystr -> pystr -> pystr.

(** [str(n)]: a text node is its own text. *)
Definition py_str (n : node) : pystr :=
  match n with
  | NavigableString s => s
  | Tag _ _ _ => tag_markup n
  end.

(** Lines 117-129: title, url and hasLink of one [li]. *)
Definition li_fields (li : node) : res (pystr * pystr * bool) :=
  let link := find li (lit "a") in
  first <- match contents_of li with
           | c :: _ => OK c
           | [] => Raise IndexError
           end ;;
  let content := py_str first in
  let text := strip content in
  match link with
  | None => Raise AttributeError
  | Some a =>
      let href := tag_get a (lit "href") [] in
      let page_title := replace href (lit "_") (lit " ") in
      let hasLink := str_eqb content (py_str a) in
      let href :=
        if startswith href (lit "/") then urljoin WIKI_BASE_URL href
        else href in
      OK (if hasLink then page_title else text,
          if hasLink then href else [],
          hasLink)
  end.

(** [parse_list_items] with a recursion budget. *)
Fixpoint parse_list_items_fuel (fuel : nat) (ol : node) (depth : Z)
  : option (res (list item)) :=
  match fuel with
  | O => None
  | S fuel' =>
      for_each
        (fun li =>
           match li_fields li with
           | Raise e => Some (Raise e)
           | OK (t, u, h) =>
               match
                 match find li (lit "ol") with
                 | Some nested_ol =>
                     parse_list_items_fuel fuel' nested_ol (depth + 1)
                 | None => Some (OK [])
                 end
               with
               | None => None
               | Some (Raise e) => Some (Raise e)
               | Some (OK cs) => Some (OK (Item t u h depth cs))
               end
           end)
        (find_all_children ol (lit "li"))
  end.

(** [parse_list_items(ol, depth)]; the budget covers the nesting of
    [ol] (see [parse_list_items_total]). *)
Definition parse_list_items (ol : node) (depth : Z)
  : option (res (list item)) :=
  parse_list_items_fuel (S (height ol)) ol depth.

End Outline.

(* ================================================================== *)
(** * Regular expressions of the renderer *)
(* ================================================================== *)

(** A lazy group [(.+?)] followed by the literal [close]: at least one
    character, none of them a newline, as few as possible.  Returns the
    group. *)
Fixpoint lazy_group (close : pystr) (s : pystr) : option pystr :=
  match s with
  | [] => None
  | c :: r =>
      if N.eqb c newline then None
      else if startswith r close then Some [c]
      else match lazy_group close r with
           | Some g => Some (c :: g)
           | None => None
           end
  end.

(** A match of [\{\{:(.+?)\}\}] at the start of [s]: the group. *)
Definition match_marker (s : pystr) : option pystr :=
  if startswith s (lit "{{:") then lazy_group (lit "}}") (skipn 3 s)
  else None.

(** [pattern.findall(s)]: the groups of the matches, left to right,
    matches do not overlap.  [skip] counts the characters of the last
    match still to be passed over. *)
Fixpoint findall_from (skip : nat) (s : pystr) : list pystr :=
  match s with
  | [] => []
  | _ :: r =>
      match skip with
      | S k => findall_from k r
      | O =>
          match match_marker s with
          | Some g => g :: findall_from (length g + 4) r
          | None => findall_from 0 r
          end
      end
  end.

Definition findall (s : pystr) : list pystr := findall_from 0 s.

(** The part [.+?\}\{(.+?)\}] of the link pattern, after [\url{]: the
    length of the first lazy run and the group.  When the rest does not
    match after some run, the run is extended by one character. *)
Fixpoint url_target (s : pystr) : option (nat * pystr) :=
  match s with
  | [] => None
  | c :: r =>
      if N.eqb c newline then None
      else
        match
          (if startswith r (lit "}{")
           then lazy_group (lit "}") (skipn 2 r)
           else None)
        with
        | Some g => Some (1, g)
        | None =>
            match url_target r with
            | Some (n, g) => Some (S n, g)
            | None => None
            end
        end
  end.

(** A match of [\\url\{.+?\}\{(.+?)\}] at the start of [s]: the length
    of the match and the group. *)
Definition match_url (s : pystr) : option (nat * pystr) :=
  if startswith s (lit "\url{")
  then match url_target (skipn 5 s) with
       | Some (n, g) => Some (5 + n + 2 + length g + 1, g)
       | None => None
       end
  else None.

(** [re.sub(r"\\url\{.+?\}\{(.+?)\}", r"\1", s)] *)
Fixpoint sub_url_from (skip : nat) (s : pystr) : pystr :=
  match s with
  | [] => []
  | c :: r =>
      match skip with
      | S k => sub_url_from k r
      | O =>
          match match_url s with
          | Some (n, g) => g ++ sub_url_from (n - 1) r
          | None => c :: sub_url_from 0 r
          end
      end
  end.

Definition sub_url (s : pystr) : pystr := sub_url_from 0 s.

(* ================================================================== *)
(** * The transclusion resolver (lines 168-191) *)
(* ================================================================== *)

Section Transclusion.

(** Lines 177-188: the page of the example is fetched, its first table
    is cut out and converted back to wiki markup. *)
Variable fetch_example : pystr -> pystr.

(** [f"{{{{:{example_title}}}}}"] *)
Definition marker (example_title : pystr) : pystr :=
  lit "{{:" ++ example_title ++ lit "}}".

(** One turn of the loop over [matches]. *)
Definition expand_match (content m : pystr) : pystr :=
  let example_title := strip m in
  let example_content := fetch_example example_title in
  replace content (marker example_title) example_content.

Definition add_examples_to_content (content : pystr) : pystr :=
  fold_left expand_match (findall content) content.

End Transclusion.

(* ================================================================== *)
(** * The tree renderer (lines 194-265) *)
(* ================================================================== *)

(** A [<page>] of the export: the text of its [<title>] and of its
    [<text>] element ([None] when the element is empty). *)
Record page := {
  page_title : option pystr;
  page_text : option pystr
}.

(** What the renderer writes: the chapter files, in the order they were
    opened for writing, and the chunks written to the main file. *)
Record world := {
  files : list (pystr * pystr);
  manifest : list pystr
}.

Definition CHAPTERS_DIR : pystr := lit "LaTeX/chapters".

(** [category = ["part", "chapter", "chapter"]] *)
Definition category : list pystr :=
  [lit "part"; lit "chapter"; lit "chapter"].

Definition longtable_old : pystr := lit "\begin{longtable}[]{@{}ll@{}}".
Definition longtable_new : pystr :=
  lit "\begin{longtable}[]{|p{0.45\textwidth}|p{0.45\textwidth}}".
Definition longtable_rules : pystr :=
  lit "\toprule\noalign{}" ++ [newline] ++ lit "\endhead" ++ [newline]
  ++ lit "\bottomrule\noalign{}" ++ [newline] ++ lit "\endlastfoot".

Section Renderer.

Variable isalnum : char -> bool.

(** [pypandoc.convert_text(source, to, format)] *)
Variable convert_text : pystr -> pystr -> pystr -> pystr.

Variable fetch_example : pystr -> pystr.

(** The parsed export, [root.findall(".//mediawiki:page")]. *)
Variable root : list page.

(** Lines 221-230: the loop over the pages; a later page of the same
    title replaces an earlier one. *)
Definition wiki_content_of (item_title : pystr) : res pystr :=
  fold_left
    (fun acc p =>
       wiki_content <- acc ;;
       match page_title p with
       | Some t =>
           if str_eqb t item_title
           then match page_text p with
                | Some text =>
                    OK (add_examples_to_content fetch_example (strip text))
                | None => Raise AttributeError
                end
           else OK wiki_content
       | None => OK wiki_content
       end)
    root (OK []).

(** Lines 231-250: the conversion to LaTeX and the two replacements on
    its result. *)
Definition to_latex (wiki_content : pystr) : pystr :=
  replace
    (replace (convert_text wiki_content (lit "latex") (lit "mediawiki"))
       longtable_old longtable_new)
    longtable_rules [].

(** Lines 216-252: [chapter_content]. *)
Definition chapter_content_of (it : item) : res pystr :=
  chapter_content <-
    (if hasLink it
     then wiki_content <- wiki_content_of (title it) ;;
          OK (to_latex wiki_content)
     else OK []) ;;
  OK (sub_url chapter_content).

(** [CHAPTERS_DIR / filename] *)
Definition filepath (it : item) : pystr :=
  CHAPTERS_DIR ++ [slash] ++ filename isalnum (title it).

(** Line 256: [f"\\{category[depth]}{{{item['title']}}}\n\n"] *)
Definition heading_line (heading : pystr) (it : item) : pystr :=
  lit "\" ++ heading ++ lit "{" ++ title it ++ lit "}" ++ [newline; newline].

(** Line 257: the body written after the heading. *)
Definition body_text (chapter_content : pystr) : pystr :=
  replace chapter_content (lit "subsection") (lit "section").

(** The text of the chapter file: the two [f.write] calls. *)
Definition unit_text (heading : pystr) (it : item) (chapter_content : pystr)
  : pystr :=
  heading_line heading it ++ body_text chapter_content.

(** The line written to the main file. *)
Definition include_line (it : item) : pystr :=
  repeat_str (lit "  ") (depth it) ++ lit "\include{chapters/"
  ++ safe_title isalnum (title it) ++ lit "}" ++ [newline].

Definition is_category (it : item) : bool :=
  startswith (title it) (lit ":Rummad:").

(** The loop of [process_structure] over a list, given what it does
    with one entry. *)
Fixpoint process_list (process_one : item -> world -> world * res unit)
  (structure : list item) (w : world) : world * res unit :=
  match structure with
  | [] => (w, OK tt)
  | it :: rest =>
      match process_one it w with
      | (w', OK _) => process_list process_one rest w'
      | (w', Raise e) => (w', Raise e)
      end
  end.

(** The body of the loop for one entry. *)
Fixpoint process_item (it : item) (w : world) : world * res unit :=
  if is_category it then (w, OK tt)
  else
    match chapter_content_of it with
    | Raise e => (w, Raise e)
    | OK chapter_content =>
        match getitem category (depth it) with
        | None =>
            ({| files := files w ++ [(filepath it, [])];
                manifest := manifest w |},
             Raise IndexError)
        | Some heading =>
            let w1 :=
              {| files :=
                   files w
                   ++ [(filepath it, unit_text heading it chapter_content)];
                 manifest := manifest w ++ [include_line it] |} in
            match it with
            | Item _ _ _ _ cs => process_list process_item cs w1
            end
        end
    end.

Definition process_structure (structure : list item) (w : world)
  : world * res unit :=
  process_list process_item structure w.

(** The entries that get rendered, in the order of the traversal. *)
Fixpoint render_order_item (it : item) : list item :=
  if is_category it then []
  else it :: match it with
             | Item _ _ _ _ cs => flat_map render_order_item cs
             end.

Definition render_order (structure : list item) : list item :=
  flat_map render_order_item structure.

(** Between [w] and [w'] the entries [its] were written, each once and
    in this order: one line of the main file and one chapter file per
    entry. *)
Definition writes_in_order (its : list item) (w w' : world) : Prop :=
  manifest w' = manifest w ++ map include_line its
  /\ map fst (files w') = map fst (files w) ++ map filepath its.

(** Nothing raises while [it] itself is rendered: its page, if it has
    one, has a text, and the heading table has an entry for its depth. *)
Definition renderable (it : item) : Prop :=
  (exists chapter_content, chapter_content_of it = OK chapter_content)
  /\ (exists heading, getitem category (depth it) = Some heading).

End Renderer.

(* ================================================================== *)
(** * Concrete stand-ins for the library functions *)
(* ================================================================== *)

(** The ASCII part of [str.isalnum]. *)
Definition ascii_alnum (c : char) : bool :=
  ((48 <=? c) && (c <=? 57) || (65 <=? c) && (c <=? 90)
   || (97 <=? c) && (c <=? 122))%N.

(** A serialisation of tags without escaping. *)
Fixpoint plain_markup (n : node) : pystr :=
  match n with
  | NavigableString s => s
  | Tag nm attrs cs =>
      lit "<" ++ nm
      ++ flat_map (fun kv => lit " " ++ fst kv ++ lit "='" ++ snd kv ++ lit "'")
           attrs
      ++ lit ">" ++ flat_map plain_markup cs ++ lit "</" ++ nm ++ lit ">"
  end.

(** Joining a site-relative path to a base without a path. *)
Definition join_path (base href : pystr) : pystr := base ++ href.

(** A converter that leaves its input alone. *)
Definition convert_id (source to format : pystr) : pystr := source.

Definition text_li (s : string) (rest : list node) : node :=
  Tag (lit "li") [] (NavigableString (lit s) :: rest).

Definition link_li (href : string) (rest : list node) : node :=
  Tag (lit "li") []
    (Tag (lit "a") [(lit "href", lit href)] [NavigableString (lit href)]
     :: rest).

Definition ol_tag (lis : list node) : node := Tag (lit "ol") [] lis.

Definition leaf (t : string) (d : Z) : item := Item (lit t) [] false d [].

Definition empty_world : world := {| files := []; manifest := [] |}.

(** An outline with four levels of nesting. *)
Definition deep_outline : node :=
  ol_tag [text_li "Part"
        [ol_tag [text_li "Chapter"
               [ol_tag [text_li "Section"
                      [ol_tag [link_li "Deep" []]]]]]]].

(** The outline [A[B, C], D]. *)
Definition sample_structure : list item :=
  [Item (lit "A") [] false 0 [leaf "B" 1; leaf "C" 1]; leaf "D" 0].

(* ================================================================== *)
(** * Properties of outlines *)
(* ================================================================== *)

Fixpoint All (A : Type) (P : A -> Prop) (l : list A) : Prop :=
  match l with
  | [] => True
  | x :: r => P x /\ All P r
  end.

Fixpoint All2 (A B : Type) (R : A -> B -> Prop) (l : list A) (m : list B)
  : Prop :=
  match l, m with
  | [], [] => True
  | x :: l', y :: m' => R x y /\ All2 R l' m'
  | _, _ => False
  end.

(** Every child of [it], and of its descendants, is one level deeper
    than its parent. *)
Fixpoint nested_depths (it : item) : Prop :=
  match it with
  | Item _ _ _ d cs => All (fun c => depth c = (d + 1)%Z /\ nested_depths c) cs
  end.

(** The [li] elements of the list nested in [li], if there is one. *)
Definition nested_lis (li : node) : list node :=
  match find li (lit "ol") with
  | Some nested_ol => find_all_children nested_ol (lit "li")
  | None => []
  end.

(** [it] is the entry of [li]: its fields are those computed from [li],
    and its children are the entries of the nested [li]s, one for one
    and in the same order. *)
Fixpoint mirrors (tag_markup : node -> pystr)
  (urljoin : pystr -> pystr -> pystr) (it : item) (li : node) : Prop :=
  match it with
  | Item t u h _ cs =>
      li_fields tag_markup urljoin li = OK (t, u, h)
      /\ All2 (mirrors tag_markup urljoin) cs (nested_lis li)
  end.

(* ================================================================== *)
(** * Bodies with markers *)
(* ================================================================== *)

(** A body cut into text and markers [{{:title}}]. *)
Inductive piece :=
| Text (s : pystr)
| Marker (example_title : pystr).

Definition piece_text (p : piece) : pystr :=
  match p with
  | Text s => s
  | Marker t => marker t
  end.

Definition body_of (ps : list piece) : pystr := flat_map piece_text ps.

(** The titles of the markers, left to right. *)
Definition titles (ps : list piece) : list pystr :=
  flat_map (fun p => match p with Text _ => [] | Marker t => [t] end) ps.

(** Text without an opening brace. *)
Definition plain (s : pystr) : Prop := Forall (fun c => c <> lbrace) s.

(** A title as the script can put it back into a marker: not empty, no
    whitespace around it, on one line, without braces. *)
Definition plain_title (t : pystr) : Prop :=
  t <> [] /\ strip t = t
  /\ Forall (fun c => c <> newline /\ c <> rbrace /\ c <> lbrace) t.

(** [s] begins like the opening of a marker: with ["{{:"], or with a
    beginning of ["{{:"] that the end of [s] cuts off. *)
Definition may_open (s : pystr) : bool :=
  startswith s (lit "{{:")
  || match s with
     | [] => false
     | _ :: _ => startswith (lit "{{:") s
     end.

(** Somewhere in [s] the opening of a marker begins, complete or cut
    off by the end of [s]. *)
Fixpoint opens (s : pystr) : bool :=
  match s with
  | [] => false
  | _ :: r => may_open s || opens r
  end.

(** Text that brings in no marker opening, whatever follows it: ["{{:"]
    does not occur in it and it does not end with an opening brace. *)
Definition sealed (s : pystr) : Prop := opens s = false.

(** The pieces of a body while the loop runs: sealed text, some of it
    examples already put in, and markers with plain titles. *)
Definition sealed_pieces (ps : list piece) : Prop :=
  Forall
    (fun p => match p with Text s => sealed s | Marker t => plain_title t end)
    ps.

(** Sealed text between markers with plain titles, and examples that
    are sealed. *)
Definition sealed_body (fetch_example : pystr -> pystr) (ps : list piece)
  : Prop :=
  Forall
    (fun p =>
       match p with
       | Text s => sealed s
       | Marker t => plain_title t /\ sealed (fetch_example t)
       end) ps.

(** The body with every marker replaced by its example. *)
Definition expanded (fetch_example : pystr -> pystr) (ps : list piece)
  : pystr :=
  flat_map
    (fun p => match p with Text s => s | Marker t => fetch_example t end) ps.

(** The markers of title [t] replaced by the text [new]. *)
Definition subst (t new : pystr) (ps : list piece) : list piece :=
  map
    (fun p =>
       match p with
       | Text s => Text s
       | Marker t' => if str_eqb t' t then Text new else Marker t'
       end) ps.

(* ================================================================== *)
(** * Further notions for the parser and the renderer *)
(* ================================================================== *)

Definition backslash : char := 92%N.

(** A reference with a web scheme in front. *)
Definition absolute_url (s : pystr) : bool :=
  startswith s (lit "https://") || startswith s (lit "http://").

(** A converter that leaves the text alone and ends its output with a
    newline, as pandoc does: the empty text comes back as one newline. *)
Definition convert_newline (source to format : pystr) : pystr :=
  match rev source with
  | c :: _ => if N.eqb c newline then source else source ++ [newline]
  | [] => [newline]
  end.

(** [p in s] *)
Fixpoint contains (s p : pystr) : bool :=
  startswith s p
  || match s with
     | [] => false
     | _ :: r => contains r p
     end.

(** The entries of a tree, each parent before its children. *)
Fixpoint all_entries_item (it : item) : list item :=
  it :: match it with
        | Item _ _ _ _ cs => flat_map all_entries_item cs
        end.

Definition all_entries (items : list item) : list item :=
  flat_map all_entries_item items.

(** The [li] elements [parse_list_items] goes through below [ol]: the
    [li] children of [ol] and, for an [li] it goes through, the [li]
    children of the first list nested in it. *)
Inductive visited (ol : node) : node -> Prop :=
| visited_top (li : node) :
    In li (find_all_children ol (lit "li")) -> visited ol li
| visited_nested (li0 nested_ol li : node) :
    visited ol li0 ->
    find li0 (lit "ol") = Some nested_ol ->
    In li (find_all_children nested_ol (lit "li")) ->
    visited ol li.

(** Two titles that differ only in which separator stands where. *)
Inductive same_words : pystr -> pystr -> Prop :=
| same_words_nil : same_words [] []
| same_words_char (c : char) (s s' : pystr) :
    same_words s s' -> same_words (c :: s) (c :: s')
| same_words_sep (c c' : char) (s s' : pystr) :
    separator c = true -> separator c' = true ->
    same_words s s' -> same_words (c :: s) (c' :: s').

Section RunOutcome.

Variable isalnum : char -> bool.
Variable convert_text : pystr -> pystr -> pystr -> pystr.
Variable fetch_example : pystr -> pystr.
Variable root : list page.

(** What a run over the entries [order] (in rendering order) has left
    behind, whether it completed or not: the entries [done], all
    renderable, were written, each with its line in the main file; after
    an exception the
    run stopped at the entry [bad], whose chapter file was opened only
    if the exception came from the heading table. *)
Definition run_outcome (order : list item) (w w' : world) (r : res unit)
  : Prop :=
  exists done rest,
    order = done ++ rest
    /\ Forall (renderable convert_text fetch_example root) done
    /\ manifest w' = manifest w ++ map (include_line isalnum) done
    /\ match r with
       | OK _ =>
           rest = []
           /\ map fst (files w')
              = map fst (files w) ++ map (filepath isalnum) done
       | Raise e =>
           exists bad rest',
             rest = bad :: rest'
             /\ ~ renderable convert_text fetch_example root bad
             /\ map fst (files w')
                = map fst (files w) ++ map (filepath isalnum) done
                  ++ match e with
                     | IndexError => [filepath isalnum bad]
                     | AttributeError => []
                     end
       end.

End RunOutcome.

(* ================================================================== *)
(** * The build (lines 268-333) *)
(* ================================================================== *)

(** Exceptions of [main]: its own, and those of the renderer. *)
Inductive main_exn :=
| UnboundLocalError
| FileNotFoundError
| Reraised (e : exn).

(** The directory [LaTeX]: the class file, the main file, the files of
    [LaTeX/chapters] in the order they were opened for writing ([None]
    when there is no such directory), and the names of whatever else is
    in it. *)
Record out_dir := {
  style_cls : option pystr;
  main_tex : option pystr;
  chapters : option (list (pystr * pystr));
  other : list pystr
}.

(** The part of the working directory the build touches: whether
    [data] exists, and [LaTeX] when it exists.  Paths that exist are
    taken to be of the kind the script expects; [data/book.xml], which
    [download_xml] writes, is left out. *)
Record fs := {
  data_dir : bool;
  output_dir : option out_dir
}.

(** [shutil.rmtree(OUTPUT_DIR)] followed by the two [mkdir]. *)
Definition fresh_out_dir : out_dir :=
  {| style_cls := None; main_tex := None; chapters := Some []; other := [] |}.

(** Lines 306-319. *)
Definition preamble : pystr :=
  lit "\documentclass{style}" ++ [newline; newline; newline]
  ++ lit "\title{Arlivio" ++ [249%N] ++ lit " ar Brezhoneg}" ++ [newline]
  ++ lit "\author{Maria Kolesnichenko}" ++ [newline]
  ++ lit "\date{\today}" ++ [newline; newline]
  ++ lit "\begin{document}" ++ [newline; newline]
  ++ lit "\maketitle" ++ [newline]
  ++ lit "\tableofcontents" ++ [newline]
  ++ lit "\cleardoublepage" ++ [newline; newline].

(** Lines 326-328. *)
Definition closing : pystr :=
  [newline] ++ lit "\end{document}" ++ [newline].

(** Lines 282-295.  [style_cls_content] is bound only when
    [LaTeX/style.cls] exists; the test [if style_cls_content] fails on the
    unbound name after the directory was emptied. *)
Definition setup_directories (d : fs) : fs * option main_exn :=
  match output_dir d with
  | None => ({| data_dir := true; output_dir := None |}, None)
  | Some o =>
      match style_cls o with
      | None =>
          ({| data_dir := true; output_dir := Some fresh_out_dir |},
           Some UnboundLocalError)
      | Some style_cls_content =>
          ({| data_dir := true;
              output_dir :=
                Some {| style_cls :=
                          match style_cls_content with
                          | [] => None
                          | _ :: _ => Some style_cls_content
                          end;
                        main_tex := None;
                        chapters := Some [];
                        other := [] |} |},
           None)
      end
  end.

Section Build.

Variable isalnum : char -> bool.
Variable convert_text : pystr -> pystr -> pystr -> pystr.
Variable fetch_example : pystr -> pystr.

(** What [download_xml] and [buildToC] return, when they return. *)
Variable root : list page.
Variable toc : list item.

(** Lines 301-329: the main file is opened, which needs [LaTeX] to
    exist; the preamble, the lines of [process_structure] and, when it
    returns, the closing are written to it.  Without [LaTeX/chapters]
    the first entry to be rendered cannot open its file. *)
Definition write_main_file (d : fs) : fs * option main_exn :=
  match output_dir d with
  | None => (d, Some FileNotFoundError)
  | Some o =>
      match chapters o with
      | Some fl =>
          let (w, r) :=
            process_structure isalnum convert_text fetch_example root toc
              {| files := []; manifest := [preamble] |} in
          ({| data_dir := data_dir d;
              output_dir :=
                Some {| style_cls := style_cls o;
                        main_tex :=
                          Some (concat (manifest w)
                                ++ match r with
                                   | OK _ => closing
                                   | Raise _ => []
                                   end);
                        chapters := Some (fl ++ files w);
                        other := other o |} |},
           match r with
           | OK _ => None
           | Raise e => Some (Reraised e)
           end)
      | None =>
          let failure :=
            match render_order toc with
            | [] => None
            | it :: _ =>
                match chapter_content_of convert_text fetch_example root it
                with
                | Raise e => Some (Reraised e)
                | OK _ => Some FileNotFoundError
                end
            end in
          ({| data_dir := data_dir d;
              output_dir :=
                Some {| style_cls := style_cls o;
                        main_tex :=
                          Some (preamble
                                ++ match failure with
                                   | None => closing
                                   | Some _ => []
                                   end);
                        chapters := None;
                        other := other o |} |},
           failure)
      end
  end.

(** [main()], for a download and an outline that went through. *)
Definition main (d : fs) : fs * option main_exn :=
  match setup_directories d with
  | (d', Some e) => (d', Some e)
  | (d', None) => write_main_file d'
  end.

End Build.

(* ================================================================== *)
(** * Facts about the Python layer *)
(* ================================================================== *)

Lemma str_eqb_refl (s : pystr) : str_eqb s s = true.
Proof.
  induction s as [|c s IH]; simpl; [reflexivity|].
  now rewrite N.eqb_refl.
Qed.

Lemma str_eqb_eq (a b : pystr) : str_eqb a b = true <-> a = b.
Proof.
  split; [|intros ->; apply str_eqb_refl].
  revert b; induction a as [|x a IH]; intros [|y b]; simpl; try discriminate;
    [reflexivity|].
  intros H; apply andb_true_iff in H as [Hxy Hab].
  apply N.eqb_eq in Hxy; subst; f_equal; auto.
Qed.

(* ================================================================== *)
(** * The identifier derivation *)
(* ================================================================== *)

Section SafeTitleFacts.

Variable isalnum : char -> bool.

Lemma underscore_ident : ident_char isalnum underscore.
Proof.
  split; [unfold re_word; now rewrite N.eqb_refl, orb_true_r | reflexivity].
Qed.

Lemma kept_not_separator (c : char) :
  kept isalnum c = true -> separator c = false -> ident_char isalnum c.
Proof.
  unfold kept, separator; intros Hk Hs; split; [|exact Hs].
  apply orb_false_iff in Hs as [Hh Hsp]; rewrite Hh, Hsp in Hk.
  now rewrite !orb_false_r in Hk.
Qed.

Lemma sub_runs_ident (s : pystr) :
  Forall (fun c => kept isalnum c = true) s ->
  forall in_run, Forall (ident_char isalnum) (sub_runs in_run s).
Proof.
  induction 1 as [|c s Hc _ IH]; intros in_run; simpl; [constructor|].
  destruct (separator c) eqn:Hs.
  - destruct in_run; [apply IH|].
    constructor; [apply underscore_ident | apply IH].
  - constructor; [now apply kept_not_separator | apply IH].
Qed.

Lemma safe_title_ident (title : pystr) :
  Forall (ident_char isalnum) (safe_title isalnum title).
Proof.
  apply sub_runs_ident, Forall_forall; intros c Hc.
  now apply filter_In in Hc.
Qed.

Lemma sub_unsafe_fixed (s : pystr) :
  Forall (ident_char isalnum) s -> sub_unsafe isalnum s = s.
Proof.
  induction 1 as [|c s [Hw _] _ IH]; [reflexivity|].
  unfold sub_unsafe in *; simpl; unfold kept at 1; now rewrite Hw, IH.
Qed.

Lemma sub_runs_fixed (s : pystr) :
  Forall (ident_char isalnum) s -> forall in_run, sub_runs in_run s = s.
Proof.
  induction 1 as [|c s [_ Hs] _ IH]; intros in_run; [reflexivity|].
  simpl; now rewrite Hs, IH.
Qed.

(** C9. Deriving the filesystem-safe identifier is idempotent: applying
    the two substitutions of lines 204-205 to an identifier they produced
    gives that identifier back. *)
Theorem safe_title_idempotent (title : pystr) :
  safe_title isalnum (safe_title isalnum title) = safe_title isalnum title.
Proof.
  pose proof (safe_title_ident title) as H.
  unfold safe_title at 1.
  now rewrite sub_unsafe_fixed, sub_runs_fixed.
Qed.

(** C10. Every character of a derived identifier is a word character
    (alphanumeric or underscore), none is whitespace and none is a
    hyphen; as the path separator is not alphanumeric, the file name
    [safe_title + ".tex"] contains no separator and is one path
    component. *)
Theorem safe_title_word_chars (title : pystr) :
  Forall (fun c => re_word isalnum c = true /\ isspace c = false /\ c <> hyphen)
    (safe_title isalnum title)
  /\ (isalnum slash = false -> ~ In slash (filename isalnum title)).
Proof.
  pose proof (safe_title_ident title) as H; split.
  - eapply Forall_impl; [|exact H].
    intros c [Hw Hs]; unfold separator, re_space in Hs.
    apply orb_false_iff in Hs as [Hh Hsp]; repeat split; auto.
    now apply N.eqb_neq.
  - intros Hslash Hin; unfold filename in Hin.
    apply in_app_or in Hin as [Hin|Hin].
    + rewrite Forall_forall in H; destruct (H _ Hin) as [Hw _].
      unfold re_word in Hw; rewrite Hslash in Hw; discriminate.
    + vm_compute in Hin; intuition discriminate.
Qed.

End SafeTitleFacts.

Lemma safe_title_word_chars_witness :
  ascii_alnum slash = false
  /\ ~ In slash (filename ascii_alnum (lit "Ar verb-skoazell (1)")).
Proof.
  split; [reflexivity|].
  apply (proj2 (safe_title_word_chars ascii_alnum
                  (lit "Ar verb-skoazell (1)"))).
  reflexivity.
Defined.

(* ================================================================== *)
(** * The outline parser *)
(* ================================================================== *)

Lemma All2_nth (A B : Type) (R : A -> B -> Prop) (l : list A) (m : list B) :
  All2 R l m ->
  forall i x y, nth_error l i = Some x -> nth_error m i = Some y -> R x y.
Proof.
  revert m; induction l as [|a l IH]; intros [|b m] H i x y Hx Hy;
    try contradiction.
  - destruct i; discriminate.
  - destruct H as [Hab Hrest]; destruct i as [|i]; simpl in *.
    + now inversion Hx; inversion Hy; subst.
    + eauto.
Qed.

Lemma All2_length (A B : Type) (R : A -> B -> Prop) (l : list A) (m : list B) :
  All2 R l m -> length l = length m.
Proof.
  revert m; induction l as [|a l IH]; intros [|b m] H; try contradiction;
    [reflexivity|].
  destruct H as [_ H]; simpl; f_equal; auto.
Qed.

(** What a completed loop returns: one result per element, in order. *)
Lemma for_each_ok (A B : Type) (f : A -> option (res B)) (l : list A)
  (ys : list B) :
  for_each f l = Some (OK ys) ->
  All2 (fun y x => f x = Some (OK y)) ys l.
Proof.
  revert ys; induction l as [|x l IH]; intros ys H; simpl in H.
  - now inversion H.
  - destruct (f x) as [[y|e]|] eqn:Hx; try discriminate.
    destruct (for_each f l) as [[ys'|e]|]; try discriminate.
    inversion H; subst; simpl; auto.
Qed.

Lemma for_each_total (A B : Type) (f : A -> option (res B)) (l : list A) :
  Forall (fun x => f x <> None) l -> for_each f l <> None.
Proof.
  induction 1 as [|x l Hx _ IH]; simpl; [discriminate|].
  destruct (f x) as [[y|e]|]; try discriminate; [|contradiction].
  destruct (for_each f l) as [[ys|e]|]; try discriminate; contradiction.
Qed.

Lemma for_each_mono (A B : Type) (f g : A -> option (res B)) (l : list A)
  (r : res (list B)) :
  (forall x y, f x = Some y -> g x = Some y) ->
  for_each f l = Some r -> for_each g l = Some r.
Proof.
  intros Hfg; revert r; induction l as [|x l IH]; intros r; [auto|].
  simpl; destruct (f x) as [[y|e]|] eqn:Hx; try discriminate;
    rewrite (Hfg _ _ Hx); [|auto].
  destruct (for_each f l) as [rl|]; [|discriminate].
  now rewrite (IH rl eq_refl).
Qed.

Lemma height_child (c : node) (cs : list node) :
  In c cs -> height c <= list_max (map height cs).
Proof.
  intros Hin.
  assert (H : Forall (fun k => k <= list_max (map height cs)) (map height cs))
    by now apply list_max_le.
  rewrite Forall_forall in H; apply H, in_map, Hin.
Qed.

Lemma find_self_height (name : pystr) (n x : node) :
  find_self name n = Some x -> height x <= height n.
Proof.
  revert n x; fix IH 1; intros [s|nm attrs cs] x H; simpl in H;
    [discriminate|].
  destruct (str_eqb nm name); [inversion H; subst; lia|].
  cbn [height].
  enough (E : height x <= list_max (map height cs)) by lia.
  revert H; induction cs as [|c cs IHcs]; simpl; [discriminate|].
  destruct (find_self name c) as [y|] eqn:Hc.
  - intros H; inversion H; subst; apply IH in Hc; lia.
  - intros H; apply IHcs in H; lia.
Qed.

Lemma find_height (name : pystr) (n x : node) :
  find n name = Some x -> height x < height n.
Proof.
  destruct n as [s|nm attrs cs]; unfold find; simpl; [discriminate|].
  induction cs as [|c cs IH]; simpl; [discriminate|].
  destruct (find_self name c) as [y|] eqn:Hc.
  - intros H; inversion H; subst; apply find_self_height in Hc; lia.
  - intros H; apply IH in H; lia.
Qed.

Lemma find_all_children_height (name : pystr) (n c : node) :
  In c (find_all_children n name) -> height c < height n.
Proof.
  unfold find_all_children; intros H; apply filter_In in H as [H _].
  destruct n as [s|nm attrs cs]; simpl in *; [contradiction|].
  apply height_child in H; lia.
Qed.

Section OutlineFacts.

Variable tag_markup : node -> pystr.
Variable urljoin : pystr -> pystr -> pystr.

(** The recursion budget [S (height ol)] is never used up. *)
Lemma parse_list_items_fuel_total (fuel : nat) :
  forall ol d, height ol < fuel ->
  parse_list_items_fuel tag_markup urljoin fuel ol d <> None.
Proof.
  induction fuel as [|fuel IH]; intros ol d Hh; [lia|].
  simpl; apply for_each_total, Forall_forall; intros li Hli.
  apply find_all_children_height in Hli.
  destruct (li_fields tag_markup urljoin li) as [[[t u] h]|e];
    [|discriminate].
  destruct (find li (lit "ol")) as [nested|] eqn:Hf; [|discriminate].
  apply find_height in Hf.
  specialize (IH nested (d + 1)%Z ltac:(lia)).
  destruct (parse_list_items_fuel tag_markup urljoin fuel nested (d + 1))
    as [[cs|e]|]; try discriminate; contradiction.
Qed.

Lemma parse_list_items_total (ol : node) (d : Z) :
  parse_list_items tag_markup urljoin ol d <> None.
Proof. apply parse_list_items_fuel_total; lia. Qed.

(** A larger budget does not change a result. *)
Lemma parse_list_items_fuel_mono (fuel : nat) :
  forall fuel' ol d r, fuel <= fuel' ->
  parse_list_items_fuel tag_markup urljoin fuel ol d = Some r ->
  parse_list_items_fuel tag_markup urljoin fuel' ol d = Some r.
Proof.
  induction fuel as [|fuel IH]; intros fuel' ol d r Hle H; [discriminate|].
  destruct fuel' as [|fuel']; [lia|].
  revert H; cbn [parse_list_items_fuel]; apply for_each_mono.
  intros li y.
  destruct (li_fields tag_markup urljoin li) as [[[t u] h]|e]; [|auto].
  destruct (find li (lit "ol")) as [nested|]; [|auto].
  destruct (parse_list_items_fuel tag_markup urljoin fuel nested (d + 1))
    as [rn|] eqn:Hn; [|discriminate].
  now rewrite (IH fuel' nested (d + 1)%Z rn ltac:(lia) Hn).
Qed.

(** The tree a completed parse returns, for any budget. *)
Lemma parse_list_items_fuel_sound (fuel : nat) :
  forall ol d items,
  parse_list_items_fuel tag_markup urljoin fuel ol d = Some (OK items) ->
  All2 (mirrors tag_markup urljoin) items (find_all_children ol (lit "li"))
  /\ All (fun it => depth it = d /\ nested_depths it) items.
Proof.
  induction fuel as [|fuel IH]; intros ol d items H; [discriminate|].
  simpl in H; apply for_each_ok in H.
  revert H; generalize (find_all_children ol (lit "li")) as lis.
  induction items as [|it items IHitems]; intros [|li lis] H;
    try contradiction; [simpl; auto|].
  destruct H as [Hit Hrest]; specialize (IHitems _ Hrest) as [IH1 IH2].
  destruct (li_fields tag_markup urljoin li) as [[[t u] h]|e] eqn:Hf;
    [|discriminate].
  unfold nested_lis.
  destruct (find li (lit "ol")) as [nested|] eqn:Hol.
  - destruct (parse_list_items_fuel tag_markup urljoin fuel nested (d + 1))
      as [[cs|e]|] eqn:Hn; try discriminate.
    inversion Hit; subst it; apply IH in Hn as [Hn1 Hn2].
    simpl; unfold nested_lis; rewrite Hol; repeat split; auto.
  - inversion Hit; subst it.
    simpl; unfold nested_lis; rewrite Hol; repeat split; auto.
Qed.

(** C1. In the tree returned by [parse_list_items], the entries stand in
    the order of the list items they come from, at every level ([mirrors]
    pairs the i-th entry with the i-th [li]), the entries of the call are
    at the depth it was given, and every child is one level deeper than
    its parent. *)
Theorem parse_list_items_order_depth (ol : node) (d : Z) (items : list item) :
  parse_list_items tag_markup urljoin ol d = Some (OK items) ->
  All2 (mirrors tag_markup urljoin) items (find_all_children ol (lit "li"))
  /\ All (fun it => depth it = d /\ nested_depths it) items.
Proof. apply parse_list_items_fuel_sound. Qed.

End OutlineFacts.

Lemma parse_list_items_order_depth_witness :
  let outline :=
    ol_tag [text_li "Part one"
          [ol_tag [link_li "Chap_1" []; link_li "/wiki/Chap_2" []]];
        link_li "Index" []] in
  exists items,
    parse_list_items plain_markup join_path outline 0 = Some (OK items)
    /\ All2 (mirrors plain_markup join_path) items
         (find_all_children outline (lit "li"))
    /\ All (fun it => depth it = 0%Z /\ nested_depths it) items.
Proof.
  intros outline.
  destruct (parse_list_items plain_markup join_path outline 0)
    as [[items|e]|] eqn:H; try (vm_compute in H; discriminate).
  exists items; split; [reflexivity|].
  exact (parse_list_items_order_depth plain_markup join_path outline 0 H).
Defined.

Section ItemFacts.

Variable tag_markup : node -> pystr.
Variable urljoin : pystr -> pystr -> pystr.

(** The fields of the i-th entry are those of the i-th [li]. *)
Lemma parse_list_items_fields (ol : node) (d : Z) (items : list item)
  (i : nat) (li : node) (it : item) :
  parse_list_items tag_markup urljoin ol d = Some (OK items) ->
  nth_error (find_all_children ol (lit "li")) i = Some li ->
  nth_error items i = Some it ->
  li_fields tag_markup urljoin li = OK (title it, url it, hasLink it).
Proof.
  intros H Hli Hit.
  apply parse_list_items_fuel_sound in H as [H _].
  pose proof (All2_nth _ _ _ H i Hit Hli) as Hm.
  destruct it; simpl in *; tauto.
Qed.

(** An item that holds text and nothing in which a link could be found
    makes the lookup of [href] fail. *)
Lemma li_fields_without_link (li first : node) (rest : list node) :
  contents_of li = first :: rest ->
  find li (lit "a") = None ->
  li_fields tag_markup urljoin li = Raise AttributeError.
Proof.
  intros Hc Hf; unfold li_fields; now rewrite Hc, Hf.
Qed.

(** An item that starts with text and has a link further down (in its
    nested list, say) is a heading without a link, titled with the
    stripped text, unless the text spells out the markup of that link. *)
Lemma li_fields_text (li a : node) (s : pystr) (rest : list node) :
  contents_of li = NavigableString s :: rest ->
  find li (lit "a") = Some a ->
  s <> py_str tag_markup a ->
  li_fields tag_markup urljoin li = OK (strip s, [], false).
Proof.
  intros Hc Hf Hne; unfold li_fields; rewrite Hc, Hf; simpl.
  destruct (str_eqb s (py_str tag_markup a)) eqn:E; [|reflexivity].
  apply str_eqb_eq in E; contradiction.
Qed.

(** The fields of an item whose first content is a link. *)
Lemma li_fields_link (li : node) (nm : pystr) (attrs : list (pystr * pystr))
  (cs rest : list node) :
  contents_of li = Tag nm attrs cs :: rest ->
  nm = lit "a" ->
  let href := dict_get attrs (lit "href") [] in
  li_fields tag_markup urljoin li
  = OK (replace href (lit "_") (lit " "),
        (if startswith href (lit "/") then urljoin WIKI_BASE_URL href
         else href),
        true).
Proof.
  intros Hc -> href; unfold li_fields, find; rewrite Hc.
  cbn [first_some find_self bind].
  change (str_eqb (lit "a") (lit "a")) with true; cbn iota.
  unfold py_str; rewrite str_eqb_refl; reflexivity.
Qed.

(** C7 (evaluation at the failing input). The outline
    [<ol><li>Intro</li></ol>], one item of plain text with no link
    anywhere, makes [parse_list_items] raise [AttributeError]: the
    [href] is read from the result of [li.find("a")], which is [None]. *)
Theorem plain_item_without_link_raises :
  parse_list_items tag_markup urljoin (ol_tag [text_li "Intro" []]) 0
  = Some (Raise AttributeError).
Proof. reflexivity. Qed.

(** What is taken from [urljoin]: joined to the base of the wiki, a path
    that starts with a slash comes back as an absolute reference. *)
Hypothesis urljoin_absolute :
  forall href, startswith href (lit "/") = true ->
               absolute_url (urljoin WIKI_BASE_URL href) = true.


End ItemFacts.



(* ================================================================== *)
(** * The tree renderer *)
(* ================================================================== *)

Lemma item_ind_nested (P : item -> Prop) :
  (forall t u h d cs, Forall P cs -> P (Item t u h d cs)) ->
  forall it, P it.
Proof.
  intros H; fix IH 1; intros [t u h d cs]; apply H.
  induction cs as [|c cs IHcs]; constructor; [apply IH | apply IHcs].
Qed.

Lemma getitem_category (d : Z) :
  getitem category d
  = if ((d =? 0) || (d =? -3))%Z then Some (lit "part")
    else if ((d =? 1) || (d =? 2) || (d =? -2) || (d =? -1))%Z
         then Some (lit "chapter")
         else None.
Proof.
  unfold getitem, category.
  change (Z.of_nat (length [lit "part"; lit "chapter"; lit "chapter"]))
    with 3%Z.
  destruct (Z.leb_spec 0 d) as [Hd|Hd].
  - destruct (Z.eqb_spec d 0) as [->|H0]; [reflexivity|].
    destruct (Z.eqb_spec d 1) as [->|H1]; [reflexivity|].
    destruct (Z.eqb_spec d 2) as [->|H2]; [reflexivity|].
    destruct (Z.eqb_spec d (-3)); [lia|].
    destruct (Z.eqb_spec d (-2)); [lia|].
    destruct (Z.eqb_spec d (-1)); [lia|]; simpl.
    replace (Z.to_nat d) with (3 + (Z.to_nat d - 3)) by lia.
    cbn [Nat.add nth_error]; now destruct (Z.to_nat d - 3).
  - destruct (Z.leb_spec (- (3)) d) as [Hl|Hl].
    + assert (Hc : d = (-3)%Z \/ d = (-2)%Z \/ d = (-1)%Z) by lia.
      destruct Hc as [->|[->| ->]]; reflexivity.
    + destruct (Z.eqb_spec d 0); [lia|].
      destruct (Z.eqb_spec d 1); [lia|].
      destruct (Z.eqb_spec d 2); [lia|].
      destruct (Z.eqb_spec d (-3)); [lia|].
      destruct (Z.eqb_spec d (-2)); [lia|].
      destruct (Z.eqb_spec d (-1)); [lia|]; reflexivity.
Qed.

Section RendererFacts.

Variable isalnum : char -> bool.
Variable convert_text : pystr -> pystr -> pystr -> pystr.
Variable fetch_example : pystr -> pystr.
Variable root : list page.

(** The loop body, unfolded once. *)
Lemma process_item_eq (it : item) (w : world) :
  process_item isalnum convert_text fetch_example root it w
  = if is_category it then (w, OK tt)
    else
      match chapter_content_of convert_text fetch_example root it with
      | Raise e => (w, Raise e)
      | OK chapter_content =>
          match getitem category (depth it) with
          | None =>
              ({| files := files w ++ [(filepath isalnum it, [])];
                  manifest := manifest w |},
               Raise IndexError)
          | Some heading =>
              process_structure isalnum convert_text fetch_example root
                (children it)
                {| files :=
                     files w
                     ++ [(filepath isalnum it,
                          unit_text heading it chapter_content)];
                   manifest := manifest w ++ [include_line isalnum it] |}
          end
      end.
Proof. destruct it; reflexivity. Qed.

Lemma process_structure_cons (it : item) (rest : list item) (w : world) :
  process_structure isalnum convert_text fetch_example root (it :: rest) w
  = match process_item isalnum convert_text fetch_example root it w with
    | (w', OK _) =>
        process_structure isalnum convert_text fetch_example root rest w'
    | (w', Raise e) => (w', Raise e)
    end.
Proof. reflexivity. Qed.

Lemma render_order_item_eq (it : item) :
  render_order_item it
  = if is_category it then [] else it :: render_order (children it).
Proof. destruct it; reflexivity. Qed.

Lemma writes_in_order_nil (w : world) : writes_in_order isalnum [] w w.
Proof. split; simpl; now rewrite app_nil_r. Qed.

Lemma writes_in_order_app (a b : list item) (w w1 w2 : world) :
  writes_in_order isalnum a w w1 -> writes_in_order isalnum b w1 w2 ->
  writes_in_order isalnum (a ++ b) w w2.
Proof.
  intros [Ha1 Ha2] [Hb1 Hb2]; split.
  - now rewrite Hb1, Ha1, map_app, app_assoc.
  - now rewrite Hb2, Ha2, map_app, app_assoc.
Qed.

Lemma process_structure_ok_from (structure : list item) :
  Forall
    (fun it => forall w w',
       process_item isalnum convert_text fetch_example root it w
       = (w', OK tt) ->
       writes_in_order isalnum (render_order_item it) w w') structure ->
  forall w w',
  process_structure isalnum convert_text fetch_example root structure w
  = (w', OK tt) ->
  writes_in_order isalnum (render_order structure) w w'.
Proof.
  induction 1 as [|it rest Hit _ IH]; intros w w' H.
  - inversion H; subst; apply writes_in_order_nil.
  - rewrite process_structure_cons in H.
    destruct (process_item isalnum convert_text fetch_example root it w)
      as [w1 [[]|e]] eqn:E; [|discriminate].
    unfold render_order; simpl.
    eapply writes_in_order_app; [apply Hit, E | apply IH, H].
Qed.

Lemma process_item_ok (it : item) :
  forall w w',
  process_item isalnum convert_text fetch_example root it w = (w', OK tt) ->
  writes_in_order isalnum (render_order_item it) w w'.
Proof.
  induction it as [t u h d cs IH] using item_ind_nested; intros w w' H.
  rewrite process_item_eq in H; rewrite render_order_item_eq.
  destruct (is_category (Item t u h d cs)).
  - inversion H; subst; apply writes_in_order_nil.
  - destruct (chapter_content_of convert_text fetch_example root
                (Item t u h d cs)) as [content|e]; [|discriminate].
    destruct (getitem category (depth (Item t u h d cs))) as [heading|];
      [|discriminate].
    apply (process_structure_ok_from IH) in H.
    change (Item t u h d cs :: render_order (children (Item t u h d cs)))
      with ([Item t u h d cs] ++ render_order cs).
    eapply writes_in_order_app; [|exact H].
    split; simpl; [reflexivity | now rewrite map_app].
Qed.

Lemma process_structure_ok (structure : list item) (w w' : world) :
  process_structure isalnum convert_text fetch_example root structure w
  = (w', OK tt) ->
  writes_in_order isalnum (render_order structure) w w'.
Proof.
  apply process_structure_ok_from, Forall_forall.
  intros it _; apply process_item_ok.
Qed.

End RendererFacts.

Section RendererClaims.

Variable isalnum : char -> bool.
Variable convert_text : pystr -> pystr -> pystr -> pystr.
Variable fetch_example : pystr -> pystr.
Variable root : list page.

Lemma process_structure_completes_from (structure : list item) :
  Forall
    (fun it =>
       Forall (renderable convert_text fetch_example root)
         (render_order_item it) ->
       forall w, exists w',
         process_item isalnum convert_text fetch_example root it w
         = (w', OK tt)) structure ->
  Forall (renderable convert_text fetch_example root)
    (render_order structure) ->
  forall w, exists w',
    process_structure isalnum convert_text fetch_example root structure w
    = (w', OK tt).
Proof.
  induction 1 as [|it rest Hit _ IH]; intros Hr w; [now exists w|].
  unfold render_order in Hr; simpl in Hr; apply Forall_app in Hr as [Hr1 Hr2].
  destruct (Hit Hr1 w) as [w1 H1].
  destruct (IH Hr2 w1) as [w2 H2].
  exists w2; now rewrite process_structure_cons, H1.
Qed.

Lemma process_item_completes (it : item) :
  Forall (renderable convert_text fetch_example root) (render_order_item it) ->
  forall w, exists w',
    process_item isalnum convert_text fetch_example root it w = (w', OK tt).
Proof.
  induction it as [t u h d cs IH] using item_ind_nested; intros Hr w.
  rewrite process_item_eq; rewrite render_order_item_eq in Hr.
  destruct (is_category (Item t u h d cs)); [now exists w|].
  inversion Hr as [|? ? [[content Hc] [heading Hh]] Hrest]; subst.
  rewrite Hc, Hh.
  now apply (process_structure_completes_from IH).
Qed.

Lemma process_structure_completes (structure : list item) :
  Forall (renderable convert_text fetch_example root)
    (render_order structure) ->
  forall w, exists w',
    process_structure isalnum convert_text fetch_example root structure w
    = (w', OK tt).
Proof.
  apply process_structure_completes_from, Forall_forall.
  intros it _; apply process_item_completes.
Qed.

(** A title that no page of the export carries leaves [wiki_content]
    empty. *)
Lemma wiki_content_of_absent (item_title : pystr) :
  (forall p, In p root -> page_title p <> Some item_title) ->
  wiki_content_of fetch_example root item_title = OK [].
Proof.
  unfold wiki_content_of; generalize root as pages.
  induction pages as [|p pages IH]; intros Habs; [reflexivity|].
  simpl; destruct (page_title p) as [t|] eqn:Ht.
  - destruct (str_eqb t item_title) eqn:E.
    + apply str_eqb_eq in E; subst t.
      exfalso; apply (Habs p); [now left | exact Ht].
    + apply IH; intros q Hq; apply Habs; now right.
  - apply IH; intros q Hq; apply Habs; now right.
Qed.

(** C4 (evaluation at the failing input). An entry at depth 3 is not
    given a [chapter] heading: the lookup in the three-entry table
    [category] raises [IndexError] after its chapter file was opened, so
    the file stays empty, no line reaches the main file and the run
    stops. *)
Theorem deep_entry_raises (w : world) :
  process_structure isalnum convert_text fetch_example root
    [leaf "Deep" 3] w
  = ({| files := files w ++ [(filepath isalnum (leaf "Deep" 3), [])];
        manifest := manifest w |},
     Raise IndexError).
Proof. reflexivity. Qed.

(** C5. An entry whose title starts with [":Rummad:"] changes nothing:
    no chapter file, no line in the main file, and its children are not
    processed; the run goes on with the next entry. *)
Theorem category_entry_skipped (it : item) (rest : list item) (w : world) :
  startswith (title it) (lit ":Rummad:") = true ->
  process_item isalnum convert_text fetch_example root it w = (w, OK tt)
  /\ process_structure isalnum convert_text fetch_example root (it :: rest) w
     = process_structure isalnum convert_text fetch_example root rest w
  /\ render_order (it :: rest) = render_order rest.
Proof.
  intros Hcat.
  assert (E : process_item isalnum convert_text fetch_example root it w
              = (w, OK tt))
    by (rewrite process_item_eq; unfold is_category; now rewrite Hcat).
  repeat split; [exact E | now rewrite process_structure_cons, E |].
  unfold render_order; simpl; rewrite render_order_item_eq.
  unfold is_category; now rewrite Hcat.
Qed.

(** C6 (amended). For a linked entry whose title no page of the export
    carries,
    nothing raises while its body is worked out: [wiki_content] stays
    empty and [chapter_content] is the conversion of the empty string
    (empty when the converter maps the empty string to itself).  When the
    entry is rendered (its title is no category title and the heading
    table has its depth), the chapter file is written with the heading
    and that body, the line is added to the main file, and the run goes
    on with the children. *)
Theorem missing_page_empty_body (it : item) :
  hasLink it = true ->
  (forall p, In p root -> page_title p <> Some (title it)) ->
  wiki_content_of fetch_example root (title it) = OK []
  /\ chapter_content_of convert_text fetch_example root it
     = OK (sub_url (to_latex convert_text []))
  /\ (convert_text [] (lit "latex") (lit "mediawiki") = [] ->
      chapter_content_of convert_text fetch_example root it = OK []
      /\ body_text (sub_url (to_latex convert_text [])) = [])
  /\ (forall heading w,
        startswith (title it) (lit ":Rummad:") = false ->
        getitem category (depth it) = Some heading ->
        process_item isalnum convert_text fetch_example root it w
        = process_structure isalnum convert_text fetch_example root
            (children it)
            {| files :=
                 files w
                 ++ [(filepath isalnum it,
                      heading_line heading it
                      ++ body_text (sub_url (to_latex convert_text [])))];
               manifest := manifest w ++ [include_line isalnum it] |}).
Proof.
  intros Hl Habs.
  pose proof (wiki_content_of_absent Habs) as Hw.
  assert (Hc : chapter_content_of convert_text fetch_example root it
               = OK (sub_url (to_latex convert_text [])))
    by (unfold chapter_content_of; now rewrite Hl, Hw).
  split; [exact Hw|]; split; [exact Hc|]; split.
  - intros He; rewrite Hc; unfold to_latex; rewrite He; split; reflexivity.
  - intros heading w Hcat Hh.
    rewrite process_item_eq; unfold is_category.
    now rewrite Hcat, Hc, Hh.
Qed.

End RendererClaims.

(** The heading of an entry at depth 0 is [part], at depth 1 or 2 it is
    [chapter]; from depth 3 on the table has no entry. *)
Lemma heading_by_depth (d : Z) :
  getitem category 0 = Some (lit "part")
  /\ (d = 1%Z \/ d = 2%Z -> getitem category d = Some (lit "chapter"))
  /\ ((3 <= d)%Z -> getitem category d = None).
Proof.
  split; [reflexivity|]; split.
  - intros [->| ->]; reflexivity.
  - intros Hd; rewrite getitem_category.
    destruct (Z.eqb_spec d 0); [lia|].
    destruct (Z.eqb_spec d (-3)); [lia|].
    destruct (Z.eqb_spec d 1); [lia|].
    destruct (Z.eqb_spec d 2); [lia|].
    destruct (Z.eqb_spec d (-2)); [lia|].
    destruct (Z.eqb_spec d (-1)); [lia|]; reflexivity.
Qed.

(** An outline nested four levels deep is parsed into entries of depth
    0 to 3, and rendering them stops with [IndexError] at the entry of
    depth 3, after the three entries above it were written. *)
Lemma deep_outline_raises :
  exists items w,
    parse_list_items plain_markup join_path deep_outline 0 = Some (OK items)
    /\ process_structure ascii_alnum convert_id (fun _ => []) [] items
         empty_world
       = (w, Raise IndexError)
    /\ length (manifest w) = 3
    /\ nth_error (files w) 3 = Some (lit "LaTeX/chapters/Deep.tex", []).
Proof. do 2 eexists; repeat split; reflexivity. Qed.



Lemma category_entry_skipped_witness :
  let it := Item (lit ":Rummad:Skoueriou") [] true 0 [leaf "Child" 1] in
  process_item ascii_alnum convert_id (fun _ => []) [] it empty_world
  = (empty_world, OK tt)
  /\ process_structure ascii_alnum convert_id (fun _ => []) []
       [it; leaf "D" 0] empty_world
     = process_structure ascii_alnum convert_id (fun _ => []) []
         [leaf "D" 0] empty_world
  /\ render_order [it; leaf "D" 0] = render_order [leaf "D" 0].
Proof.
  intros it.
  exact (@category_entry_skipped ascii_alnum convert_id (fun _ => []) []
           it [leaf "D" 0] empty_world eq_refl).
Defined.

(** C6 (counterexample). With a converter that ends its output with a
    newline, as pandoc does, the chapter file of a linked entry whose
    page is missing holds the heading and a body of one newline: the body
    is not empty. *)
Lemma missing_page_body_newline :
  process_item ascii_alnum convert_newline (fun _ => [])
    [{| page_title := Some (lit "Degemer");
        page_text := Some (lit "Demat") |}]
    (Item (lit "Ar verb") (lit "Ar_verb") true 1 []) empty_world
  = ({| files := [(lit "LaTeX/chapters/Ar_verb.tex",
                   lit "\chapter{Ar verb}" ++ [newline; newline]
                   ++ [newline])];
        manifest := [lit "  \include{chapters/Ar_verb}" ++ [newline]] |},
     OK tt)
  /\ body_text (sub_url (to_latex convert_newline [])) = [newline]
  /\ body_text (sub_url (to_latex convert_newline [])) <> [].
Proof. repeat split; discriminate. Qed.

Lemma missing_page_empty_body_witness :
  let it := Item (lit "Ar verb") (lit "Ar_verb") true 1 [] in
  let store := [{| page_title := Some (lit "Degemer");
                   page_text := Some (lit "Demat") |}] in
  wiki_content_of (fun _ => []) store (title it) = OK []
  /\ chapter_content_of convert_newline (fun _ => []) store it
     = OK (sub_url (to_latex convert_newline []))
  /\ process_item ascii_alnum convert_newline (fun _ => []) store it
       empty_world
     = ({| files := [(lit "LaTeX/chapters/Ar_verb.tex",
                      heading_line (lit "chapter") it
                      ++ body_text (sub_url (to_latex convert_newline [])))];
           manifest := [lit "  \include{chapters/Ar_verb}" ++ [newline]] |},
        OK tt).
Proof.
  intros it store.
  assert (Habs : forall p, In p store -> page_title p <> Some (title it)).
  { intros p [<-|[]]; discriminate. }
  destruct (@missing_page_empty_body ascii_alnum convert_newline
              (fun _ => []) store it eq_refl Habs)
    as (Hw & Hc & _ & H).
  split; [exact Hw|]; split; [exact Hc|].
  rewrite (H (lit "chapter") empty_world eq_refl eq_refl); reflexivity.
Defined.

(* ================================================================== *)
(** * The transclusion resolver *)
(* ================================================================== *)

Lemma startswith_app (p r : pystr) : startswith (p ++ r) p = true.
Proof.
  induction p as [|c p IH]; simpl; [reflexivity|].
  now rewrite N.eqb_refl.
Qed.

Lemma startswith_head (c x : char) (s p : pystr) :
  c <> x -> startswith (c :: s) (x :: p) = false.
Proof.
  intros Hne; simpl; destruct (N.eqb_spec x c); [congruence|reflexivity].
Qed.

Lemma marker_cons (t : pystr) :
  marker t = lbrace :: lbrace :: colon :: t ++ [rbrace; rbrace].
Proof. reflexivity. Qed.

Lemma marker_app (t r : pystr) :
  marker t ++ r = lbrace :: lbrace :: colon :: t ++ rbrace :: rbrace :: r.
Proof. rewrite marker_cons; simpl; now rewrite <- app_assoc. Qed.

(** The lazy group stops at the end of a brace-free title. *)
Lemma lazy_group_title (t r : pystr) :
  t <> [] ->
  Forall (fun c => c <> newline /\ c <> rbrace /\ c <> lbrace) t ->
  lazy_group (lit "}}") (t ++ rbrace :: rbrace :: r) = Some t.
Proof.
  change (lit "}}") with [rbrace; rbrace].
  induction t as [|c t IH]; intros Hne Hall; [contradiction|].
  inversion Hall as [|? ? (Hnl & _ & _) Ht]; subst.
  cbn [app lazy_group].
  destruct (N.eqb_spec c newline); [contradiction|].
  destruct t as [|c' t'].
  - reflexivity.
  - inversion Ht as [|? ? (_ & Hrb & _) _]; subst.
    cbn [app]; rewrite (startswith_head _ _ Hrb).
    cbn [app] in IH; rewrite IH; [reflexivity | discriminate | exact Ht].
Qed.

Lemma match_marker_title (t r : pystr) :
  plain_title t -> match_marker (marker t ++ r) = Some t.
Proof.
  intros (Hne & _ & Hall); rewrite marker_app.
  change (lazy_group (lit "}}") (t ++ rbrace :: rbrace :: r) = Some t).
  now apply lazy_group_title.
Qed.

Lemma match_marker_plain (c : char) (s : pystr) :
  c <> lbrace -> match_marker (c :: s) = None.
Proof.
  intros Hc; unfold match_marker.
  change (lit "{{:") with [lbrace; lbrace; colon].
  now rewrite (startswith_head _ _ Hc).
Qed.

Lemma findall_from_skip (p r : pystr) :
  findall_from (length p) (p ++ r) = findall_from 0 r.
Proof. induction p as [|c p IH]; [reflexivity | exact IH]. Qed.

Lemma findall_plain (s r : pystr) :
  plain s -> findall_from 0 (s ++ r) = findall_from 0 r.
Proof.
  induction 1 as [|c s Hc _ IH]; [reflexivity|].
  cbn [app findall_from]; now rewrite (match_marker_plain _ Hc).
Qed.

Lemma findall_marker (t r : pystr) :
  plain_title t -> findall_from 0 (marker t ++ r) = t :: findall_from 0 r.
Proof.
  intros Ht; pose proof (match_marker_title r Ht) as Hm.
  rewrite marker_app in *; cbn [findall_from]; rewrite Hm; f_equal.
  replace (length t + 4)
    with (length (lbrace :: colon :: t ++ [rbrace; rbrace]))
    by (simpl; rewrite length_app; simpl; lia).
  rewrite <- (findall_from_skip (lbrace :: colon :: t ++ [rbrace; rbrace]) r).
  simpl; now rewrite <- app_assoc.
Qed.

Lemma body_of_cons (p : piece) (ps : list piece) :
  body_of (p :: ps) = piece_text p ++ body_of ps.
Proof. reflexivity. Qed.

Lemma replace_from_here (old new : pystr) (c : char) (r : pystr) :
  replace_from old new 0 (c :: r)
  = if startswith (c :: r) old
    then new ++ replace_from old new (length old - 1) r
    else c :: replace_from old new 0 r.
Proof. reflexivity. Qed.

(** A suffix that does not begin like a marker opening matches no
    string that starts with ["{{:"], whatever follows it. *)
Lemma may_open_blocks (c : char) (q r x : pystr) :
  may_open (c :: q) = false ->
  startswith ((c :: q) ++ r) (lbrace :: lbrace :: colon :: x) = false.
Proof.
  intros H; cbn [app startswith].
  destruct (N.eqb_spec lbrace c) as [<-|]; [|reflexivity].
  destruct q as [|c2 q]; [discriminate|].
  cbn [app andb].
  destruct (N.eqb_spec lbrace c2) as [<-|]; [|reflexivity].
  destruct q as [|c3 q]; [discriminate|].
  cbn [app andb].
  destruct (N.eqb_spec colon c3) as [<-|]; [discriminate | reflexivity].
Qed.

Lemma findall_sealed (s r : pystr) :
  sealed s -> findall_from 0 (s ++ r) = findall_from 0 r.
Proof.
  unfold sealed; induction s as [|c s IH]; [reflexivity|].
  cbn [opens]; intros H; apply orb_false_iff in H as [Hm Ho].
  cbn [app findall_from]; unfold match_marker.
  change (lit "{{:") with [lbrace; lbrace; colon].
  pose proof (@may_open_blocks c s r [] Hm) as Hs; cbn [app] in Hs.
  rewrite Hs; auto.
Qed.

Lemma replace_from_sealed (old new s r : pystr) :
  sealed s ->
  replace_from (lbrace :: lbrace :: colon :: old) new 0 (s ++ r)
  = s ++ replace_from (lbrace :: lbrace :: colon :: old) new 0 r.
Proof.
  unfold sealed; induction s as [|c s IH]; [reflexivity|].
  cbn [opens]; intros H; apply orb_false_iff in H as [Hm Ho].
  pose proof (@may_open_blocks c s r old Hm) as Hs; cbn [app] in Hs.
  cbn [app]; rewrite replace_from_here, Hs, IH by exact Ho; reflexivity.
Qed.

(** Sealed text, said with [in]: ["{{:"] does not occur in it and its
    last character is no opening brace. *)
Lemma sealed_iff (s : pystr) :
  sealed s
  <-> contains s (lit "{{:") = false /\ forall p, s <> p ++ [lbrace].
Proof.
  unfold sealed; induction s as [|c s IH].
  - split; [|reflexivity].
    intros _; split; [reflexivity | intros [|x p]; discriminate].
  - cbn [opens contains]; split.
    + intros H; apply orb_false_iff in H as [Hm Ho].
      apply IH in Ho as [Hc He].
      unfold may_open in Hm; apply orb_false_iff in Hm as [Hm1 Hm2].
      split; [now rewrite Hm1, Hc|].
      intros [|x p] Hp; cbn [app] in Hp.
      * injection Hp as -> ->; discriminate.
      * injection Hp as _ Hs; exact (He p Hs).
    + intros [Hc He]; apply orb_false_iff in Hc as [Hc1 Hc2].
      apply orb_false_iff; split.
      * unfold may_open; rewrite Hc1; cbn [orb].
        change (lit "{{:") with [lbrace; lbrace; colon].
        cbn [startswith].
        destruct (N.eqb_spec c lbrace) as [->|]; [|reflexivity].
        destruct s as [|c2 s]; [exfalso; now apply (He [])|].
        cbn [andb startswith].
        destruct (N.eqb_spec c2 lbrace) as [->|]; [|reflexivity].
        destruct s as [|c3 s]; [exfalso; now apply (He [lbrace])|].
        cbn [andb startswith].
        destruct (N.eqb_spec c3 colon) as [->|]; [|reflexivity].
        discriminate Hc1.
      * apply IH; split; [exact Hc2|].
        intros p Hp; apply (He (c :: p)); cbn [app]; now rewrite Hp.
Qed.

Section ResolverFacts.

Variable fetch_example : pystr -> pystr.

Lemma findall_body (ps : list piece) :
  sealed_pieces ps -> findall (body_of ps) = titles ps.
Proof.
  unfold findall; induction 1 as [|[s|t] ps Hp _ IH]; [reflexivity| |];
    rewrite body_of_cons; cbn [piece_text].
  - now rewrite findall_sealed.
  - now rewrite findall_marker, IH.
Qed.

End ResolverFacts.

Lemma replace_from_skip (old new p r : pystr) :
  replace_from old new (length p) (p ++ r) = replace_from old new 0 r.
Proof. induction p as [|c p IH]; [reflexivity | exact IH]. Qed.

Lemma replace_from_plain (old new s r : pystr) :
  plain s ->
  replace_from (lbrace :: old) new 0 (s ++ r)
  = s ++ replace_from (lbrace :: old) new 0 r.
Proof.
  induction 1 as [|c s Hc _ IH]; [reflexivity|].
  cbn [app replace_from]; now rewrite (startswith_head _ _ Hc), IH.
Qed.

(** Two brace-free titles followed by the closing braces: one is a
    prefix of the other only when they are equal. *)
Lemma startswith_titles (t : pystr) :
  Forall (fun c => c <> rbrace) t ->
  forall t' r, Forall (fun c => c <> rbrace) t' ->
  startswith (t' ++ rbrace :: rbrace :: r) (t ++ [rbrace; rbrace])
  = str_eqb t' t.
Proof.
  induction 1 as [|c t Hc _ IH]; intros t' r Ht'.
  - destruct Ht' as [|c' t' Hc' _]; [reflexivity|].
    cbn [app]; now rewrite (startswith_head _ _ Hc').
  - destruct Ht' as [|c' t' Hc' Ht']; cbn [app].
    + assert (Hne : rbrace <> c) by congruence.
      now rewrite (startswith_head _ _ Hne).
    + cbn [startswith str_eqb]; rewrite (IH t' r Ht').
      now rewrite N.eqb_sym.
Qed.

Lemma plain_title_no_rbrace (t : pystr) :
  plain_title t -> Forall (fun c => c <> rbrace) t.
Proof.
  intros (_ & _ & H); eapply Forall_impl; [|exact H].
  intros c (_ & Hc & _); exact Hc.
Qed.

Lemma plain_title_plain (t : pystr) :
  plain_title t -> plain (colon :: t ++ [rbrace; rbrace]).
Proof.
  intros (_ & _ & H); constructor; [discriminate|].
  apply Forall_app; split.
  - eapply Forall_impl; [|exact H]; intros c (_ & _ & Hc); exact Hc.
  - repeat constructor; discriminate.
Qed.

(** The scan of [replace] over one marker. *)
Lemma replace_from_marker (t t' new r : pystr) :
  plain_title t -> plain_title t' ->
  replace_from (marker t) new 0 (marker t' ++ r)
  = (if str_eqb t' t then new else marker t')
    ++ replace_from (marker t) new 0 r.
Proof.
  intros Ht Ht'.
  destruct (str_eqb t' t) eqn:E.
  - apply str_eqb_eq in E; subst t'.
    pose proof (startswith_app (marker t) r) as Hs.
    rewrite marker_app in *; rewrite replace_from_here, Hs.
    apply (f_equal (app new)).
    rewrite marker_cons.
    replace (length (lbrace :: lbrace :: colon :: t ++ [rbrace; rbrace]) - 1)
      with (length (lbrace :: colon :: t ++ [rbrace; rbrace]))
      by (cbn [length]; lia).
    replace (lbrace :: colon :: t ++ rbrace :: rbrace :: r)
      with ((lbrace :: colon :: t ++ [rbrace; rbrace]) ++ r)
      by (cbn [app]; now rewrite <- app_assoc).
    apply replace_from_skip.
  - pose proof (startswith_titles (plain_title_no_rbrace Ht) r
                  (plain_title_no_rbrace Ht')) as Hs.
    rewrite E in Hs.
    pose proof (replace_from_plain (lbrace :: colon :: t ++ [rbrace; rbrace])
                  new r (plain_title_plain Ht')) as Hp.
    rewrite marker_app, !marker_cons.
    rewrite replace_from_here.
    replace (startswith
               (lbrace :: lbrace :: colon :: t' ++ rbrace :: rbrace :: r)
               (lbrace :: lbrace :: colon :: t ++ [rbrace; rbrace]))
      with false by (symmetry; exact Hs).
    rewrite replace_from_here.
    replace (startswith (lbrace :: colon :: t' ++ rbrace :: rbrace :: r)
               (lbrace :: lbrace :: colon :: t ++ [rbrace; rbrace]))
      with false by reflexivity.
    cbn [app]; do 2 apply (f_equal (cons lbrace)).
    cbn [app] in Hp; rewrite <- app_assoc in Hp; exact Hp.
Qed.

Section ResolverClaims.

Variable fetch_example : pystr -> pystr.

Lemma replace_body (t new : pystr) (ps : list piece) :
  plain_title t -> sealed_pieces ps ->
  replace (body_of ps) (marker t) new = body_of (subst t new ps).
Proof.
  intros Ht; rewrite marker_cons; unfold replace; rewrite <- marker_cons.
  induction 1 as [|[s|t'] ps Hp _ IH]; [reflexivity| |];
    rewrite body_of_cons; cbn [subst map]; rewrite body_of_cons;
    cbn [piece_text].
  - rewrite marker_cons, replace_from_sealed, <- marker_cons by exact Hp.
    now rewrite IH.
  - rewrite replace_from_marker, IH by assumption.
    now destruct (str_eqb t' t).
Qed.

Lemma subst_sealed_pieces (t new : pystr) (ps : list piece) :
  sealed new -> sealed_pieces ps -> sealed_pieces (subst t new ps).
Proof.
  intros Hn; induction 1 as [|[s|t'] ps Hp _ IH]; constructor; auto.
  now destruct (str_eqb t' t).
Qed.

(** The loop over the matches, on the pieces. *)
Lemma fold_expand_match (ts : list pystr) :
  Forall (fun t => plain_title t /\ sealed (fetch_example t)) ts ->
  forall ps, sealed_pieces ps ->
  fold_left (expand_match fetch_example) ts (body_of ps)
  = body_of (fold_left (fun ps t => subst t (fetch_example t) ps) ts ps).
Proof.
  induction 1 as [|t ts [Ht Hf] _ IH]; intros ps Hps; [reflexivity|].
  cbn [fold_left]; unfold expand_match at 2.
  destruct Ht as (Hne & Hstrip & Hall); rewrite Hstrip.
  rewrite replace_body by (repeat split; assumption).
  apply IH, subst_sealed_pieces; assumption.
Qed.

Lemma fold_subst (ts : list pystr) :
  forall ps,
  fold_left (fun ps t => subst t (fetch_example t) ps) ts ps
  = map
      (fun p =>
         match p with
         | Text s => Text s
         | Marker t' =>
             if existsb (str_eqb t') ts then Text (fetch_example t')
             else Marker t'
         end) ps.
Proof.
  induction ts as [|t ts IH]; intros ps.
  - cbn [fold_left existsb]; rewrite <- (map_id ps) at 1.
    apply map_ext; now intros [s|t'].
  - cbn [fold_left]; rewrite IH; unfold subst; rewrite map_map.
    apply map_ext; intros [s|t']; [reflexivity|].
    cbn [existsb]; destruct (str_eqb t' t) eqn:E; [|reflexivity].
    apply str_eqb_eq in E; now subst.
Qed.

Lemma body_of_all_replaced (ts : list pystr) (ps : list piece) :
  (forall t, In t (titles ps) -> In t ts) ->
  body_of
    (map
       (fun p =>
          match p with
          | Text s => Text s
          | Marker t' =>
              if existsb (str_eqb t') ts then Text (fetch_example t')
              else Marker t'
          end) ps)
  = expanded fetch_example ps.
Proof.
  induction ps as [|[s|t'] ps IH]; intros Hin; [reflexivity| |];
    cbn [map]; rewrite body_of_cons; unfold expanded; cbn [flat_map];
    fold (expanded fetch_example ps).
  - rewrite IH; [reflexivity | exact Hin].
  - assert (E : existsb (str_eqb t') ts = true).
    { apply existsb_exists; exists t'; split; [|apply str_eqb_refl].
      apply Hin; now left. }
    rewrite E, IH; [reflexivity|].
    intros t H; apply Hin; now right.
Qed.

Lemma findall_expanded (ps : list piece) :
  sealed_body fetch_example ps ->
  findall_from 0 (expanded fetch_example ps) = [].
Proof.
  induction 1 as [|[s|t] ps Hp _ IH]; [reflexivity| |];
    unfold expanded; cbn [flat_map]; fold (expanded fetch_example ps);
    rewrite findall_sealed; tauto.
Qed.

Lemma sealed_body_pieces (ps : list piece) :
  sealed_body fetch_example ps ->
  sealed_pieces ps
  /\ Forall (fun t => plain_title t /\ sealed (fetch_example t)) (titles ps).
Proof.
  induction 1 as [|[s|t] ps Hp _ [IH1 IH2]]; split; try constructor;
    tauto.
Qed.

(** C2 (amended). On a body made of text and markers [{{:title}}], in
    which no text piece contains ["{{:"] or ends with an opening brace,
    the titles are non-empty, on one line, brace-free and written without
    surrounding whitespace, and with examples that contain no ["{{:"] and
    do not end with an opening brace, [add_examples_to_content] returns
    the body with every marker replaced by the example of its title, and
    the pattern no longer matches anywhere in the result. *)
Theorem add_examples_sealed_body (ps : list piece) :
  sealed_body fetch_example ps ->
  add_examples_to_content fetch_example (body_of ps)
  = expanded fetch_example ps
  /\ findall (expanded fetch_example ps) = [].
Proof.
  intros Hb; pose proof (sealed_body_pieces Hb) as [Hps Hts]; split.
  - unfold add_examples_to_content; rewrite findall_body by exact Hps.
    rewrite fold_expand_match, fold_subst by assumption.
    now apply body_of_all_replaced.
  - exact (findall_expanded Hb).
Qed.

End ResolverClaims.

(** C2 (counterexample). With an example that itself spells a marker,
    the result of the single pass still contains a marker. *)
Lemma example_with_marker_remains :
  add_examples_to_content (fun _ => lit "{{:Example}}") (lit "{{:Example}}")
  = lit "{{:Example}}"
  /\ findall (lit "{{:Example}}") = [lit "Example"].
Proof. split; reflexivity. Qed.

(** A marker written with spaces around the title is looked up under
    the stripped title, and the marker rebuilt from the stripped title
    does not occur in the body: it is left as it is, whatever the
    example. *)
Lemma spaced_marker_remains (fetch_example : pystr -> pystr) :
  add_examples_to_content fetch_example (lit "{{: Example }}")
  = lit "{{: Example }}".
Proof. reflexivity. Qed.

Lemma add_examples_sealed_body_witness :
  let table :=
    lit "{|" ++ [newline] ++ lit "| {a} || b:" ++ [newline] ++ lit "|}" in
  let fetch := fun t : pystr =>
    if str_eqb t (lit "Example") then table else lit "F" in
  let ps :=
    [Text (lit "See {this}: "); Marker (lit "Example"); Text (lit " and ");
     Marker (lit "Skouer 2"); Marker (lit "Example"); Text (lit ".")] in
  body_of ps = lit "See {this}: {{:Example}} and {{:Skouer 2}}{{:Example}}."
  /\ add_examples_to_content fetch (body_of ps)
     = lit "See {this}: " ++ table ++ lit " and F" ++ table ++ lit "."
  /\ findall (lit "See {this}: " ++ table ++ lit " and F" ++ table ++ lit ".")
     = [].
Proof.
  intros table fetch ps.
  assert (Hb : sealed_body fetch ps).
  { repeat constructor; try discriminate; intros []. }
  split; [reflexivity|].
  exact (add_examples_sealed_body Hb).
Defined.

(* ================================================================== *)
(** * More on identifiers *)
(* ================================================================== *)

Section SafeTitleMore.

Variable isalnum : char -> bool.

Lemma sub_runs_nil (s : pystr) (in_run : bool) :
  sub_runs in_run s = [] -> in_run = false -> s = [].
Proof.
  destruct s as [|c s]; [reflexivity|]; simpl.
  destruct (separator c); intros H Hr; subst; discriminate.
Qed.

Lemma separator_kept (c : char) : separator c = true -> kept isalnum c = true.
Proof.
  unfold separator, kept; intros H.
  apply orb_true_iff in H as [H|H]; rewrite H; now rewrite ?orb_true_r.
Qed.

Lemma sub_runs_same_words (s s' : pystr) :
  same_words s s' -> forall in_run, sub_runs in_run s = sub_runs in_run s'.
Proof.
  induction 1 as [|c s s' _ IH|c c' s s' Hc Hc' _ IH]; intros in_run; simpl.
  - reflexivity.
  - now rewrite !IH.
  - now rewrite Hc, Hc', IH.
Qed.

Lemma sub_unsafe_same_words (s s' : pystr) :
  same_words s s' ->
  same_words (sub_unsafe isalnum s) (sub_unsafe isalnum s').
Proof.
  unfold sub_unsafe.
  induction 1 as [|c s s' _ IH|c c' s s' Hc Hc' _ IH]; simpl.
  - constructor.
  - destruct (kept isalnum c); [now constructor | exact IH].
  - rewrite (separator_kept _ Hc), (separator_kept _ Hc').
    now constructor.
Qed.

(** X1. The titles that are their own identifier are exactly those made
    of word characters that are neither whitespace nor hyphen. *)
Theorem safe_title_fixed_iff (title : pystr) :
  safe_title isalnum title = title <-> Forall (ident_char isalnum) title.
Proof.
  split.
  - intros H; rewrite <- H; apply safe_title_ident.
  - intros H; unfold safe_title.
    now rewrite (sub_unsafe_fixed H), (sub_runs_fixed H).
Qed.

(** X2. The identifier is empty exactly when the first substitution
    deletes every character of the title (no word character, whitespace
    or hyphen in it); the chapter file is then [".tex"]. *)
Theorem safe_title_empty_iff (title : pystr) :
  safe_title isalnum title = []
  <-> Forall (fun c => kept isalnum c = false) title.
Proof.
  unfold safe_title, sub_unsafe; split.
  - intros H; apply sub_runs_nil in H; [|reflexivity].
    induction title as [|c title IH]; [constructor|].
    simpl in H; destruct (kept isalnum c) eqn:Hk; [discriminate|].
    constructor; auto.
  - intros H; induction H as [|c title Hc _ IH]; [reflexivity|].
    simpl; now rewrite Hc.
Qed.

(** X3. Titles that differ only in their separators (which whitespace
    character or hyphen stands where) get the same identifier, hence the
    same chapter file. *)
Theorem safe_title_same_words (title title' : pystr) :
  same_words title title' ->
  safe_title isalnum title = safe_title isalnum title'.
Proof.
  intros H; unfold safe_title.
  now apply sub_runs_same_words, sub_unsafe_same_words.
Qed.

End SafeTitleMore.

Lemma safe_title_same_words_witness :
  same_words (lit "Ar verb-skoazell") (lit "Ar-verb skoazell")
  /\ safe_title ascii_alnum (lit "Ar verb-skoazell")
     = safe_title ascii_alnum (lit "Ar-verb skoazell").
Proof.
  assert (H : same_words (lit "Ar verb-skoazell") (lit "Ar-verb skoazell")).
  { vm_compute.
    do 2 apply same_words_char.
    apply same_words_sep; [reflexivity | reflexivity |].
    do 4 apply same_words_char.
    apply same_words_sep; [reflexivity | reflexivity |].
    repeat apply same_words_char; apply same_words_nil. }
  split; [exact H | exact (safe_title_same_words ascii_alnum H)].
Defined.

(* ================================================================== *)
(** * More on the outline parser *)
(* ================================================================== *)

Lemma All2_In_r (A B : Type) (R : A -> B -> Prop) (l : list A) (m : list B) :
  All2 R l m -> forall y, In y m -> exists x, In x l /\ R x y.
Proof.
  revert m; induction l as [|a l IH]; intros [|b m] H y Hy;
    try contradiction.
  destruct H as [Hab H]; destruct Hy as [<-|Hy].
  - exists a; split; [now left | exact Hab].
  - destruct (IH _ H _ Hy) as (x & Hx & Hr); exists x; split;
      [now right | exact Hr].
Qed.

Lemma find_all_children_tag (name : pystr) (n c : node) :
  In c (find_all_children n name) -> 1 <= height c.
Proof.
  unfold find_all_children; intros H; apply filter_In in H as [_ H].
  destruct c; [discriminate | simpl; lia].
Qed.

Section OutlineMore.

Variable tag_markup : node -> pystr.
Variable urljoin : pystr -> pystr -> pystr.

Lemma li_fields_ok_inv (li : node) (f : pystr * pystr * bool) :
  li_fields tag_markup urljoin li = OK f ->
  contents_of li <> [] /\ find li (lit "a") <> None.
Proof.
  unfold li_fields.
  destruct (contents_of li) as [|c cs]; [discriminate|]; simpl.
  destruct (find li (lit "a")); [|discriminate].
  intros _; split; discriminate.
Qed.

Lemma visited_mirrored (ol : node) (items : list item) :
  All2 (mirrors tag_markup urljoin) items (find_all_children ol (lit "li")) ->
  forall li, visited ol li -> exists it, mirrors tag_markup urljoin it li.
Proof.
  intros H li Hv; induction Hv as [li Hin|li0 nested li _ IH Hf Hin].
  - destruct (@All2_In_r _ _ _ _ _ H _ Hin) as (it & _ & Hm); now exists it.
  - destruct IH as [[t u h d cs] [_ Hcs]].
    unfold nested_lis in Hcs; rewrite Hf in Hcs.
    destruct (@All2_In_r _ _ _ _ _ Hcs _ Hin) as (it & _ & Hm); now exists it.
Qed.

(** X4. A list item that starts with text and has a link further down
    (in its nested list, say) becomes a heading without link: [hasLink]
    is false, the [url] is empty and the title is the text without the
    whitespace around it -- unless the text spells out the markup of
    that link. *)
Theorem text_item_fields (ol : node) (d : Z) (items : list item)
  (i : nat) (li a : node) (it : item) (s : pystr) (rest : list node) :
  parse_list_items tag_markup urljoin ol d = Some (OK items) ->
  nth_error (find_all_children ol (lit "li")) i = Some li ->
  nth_error items i = Some it ->
  contents_of li = NavigableString s :: rest ->
  find li (lit "a") = Some a ->
  s <> py_str tag_markup a ->
  hasLink it = false /\ url it = [] /\ title it = strip s.
Proof.
  intros H Hli Hit Hc Hf Hne.
  pose proof (@parse_list_items_fields tag_markup urljoin _ _ _ _ _ _
                H Hli Hit) as Hfields.
  rewrite (@li_fields_text tag_markup urljoin _ _ _ _ Hc Hf Hne) in Hfields.
  injection Hfields as Ht Hu Hh; auto.
Qed.

(** X5. When [parse_list_items] returns a tree, every list item it
    went through, at any level of nesting, has a first content and
    contains a link: one item without them anywhere in the outline and
    there is no tree at all, not a partial one. *)
Theorem visited_items_linked (ol : node) (d : Z) (items : list item)
  (li : node) :
  parse_list_items tag_markup urljoin ol d = Some (OK items) ->
  visited ol li ->
  contents_of li <> [] /\ find li (lit "a") <> None.
Proof.
  intros H Hv; apply parse_list_items_fuel_sound in H as [H _].
  destruct (@visited_mirrored ol items H li Hv) as [[t u h d' cs] [Hf _]].
  exact (@li_fields_ok_inv li _ Hf).
Qed.

Lemma parse_list_items_fuel_depths (fuel : nat) :
  forall ol d items,
  parse_list_items_fuel tag_markup urljoin fuel ol d = Some (OK items) ->
  Forall
    (fun it =>
       (d <= depth it)%Z
       /\ (2 * (depth it - d) + 2 <= Z.of_nat (height ol))%Z)
    (all_entries items).
Proof.
  induction fuel as [|fuel IH]; intros ol d items H; [discriminate|].
  simpl in H; apply for_each_ok in H.
  assert (Hh : forall li, In li (find_all_children ol (lit "li")) ->
                          1 <= height li < height ol).
  { intros li Hli; split;
      [eapply find_all_children_tag | eapply find_all_children_height];
      exact Hli. }
  revert H Hh; generalize (find_all_children ol (lit "li")) as lis.
  induction items as [|it items IHitems]; intros [|li lis] H Hh;
    try contradiction; [constructor|].
  destruct H as [Hit Hrest].
  unfold all_entries; cbn [flat_map]; apply Forall_app; split;
    [|apply (IHitems lis Hrest); intros l Hl; apply Hh; now right].
  specialize (Hh li (or_introl eq_refl)).
  destruct (li_fields tag_markup urljoin li) as [[[t u] h]|e];
    [|discriminate].
  destruct (find li (lit "ol")) as [nested|] eqn:Hol.
  - destruct (parse_list_items_fuel tag_markup urljoin fuel nested (d + 1))
      as [[cs|e]|] eqn:Hn; try discriminate.
    inversion Hit; subst it; apply IH in Hn.
    apply find_height in Hol.
    cbn [all_entries_item]; constructor; [cbn [depth]; lia|].
    fold (all_entries cs); eapply Forall_impl; [|exact Hn].
    cbn beta; intros c [H1 H2]; lia.
  - inversion Hit; subst it.
    cbn [all_entries_item flat_map]; constructor; [cbn [depth]; lia|].
    constructor.
Qed.

(** X6. Every entry of the tree returned by [parse_list_items(ol,
    depth)], at any level, has a depth of at least [depth], and a depth
    of [depth + k] needs [2 * k + 2] levels of tags in [ol] (an [ol] and
    an [li] per level of the outline). *)
Theorem parsed_depths (ol : node) (d : Z) (items : list item) :
  parse_list_items tag_markup urljoin ol d = Some (OK items) ->
  Forall
    (fun it =>
       (d <= depth it)%Z
       /\ (2 * (depth it - d) + 2 <= Z.of_nat (height ol))%Z)
    (all_entries items).
Proof. apply parse_list_items_fuel_depths. Qed.

(** X7. For an outline parsed from depth 0 whose tags nest fewer than
    eight levels (at most three levels of lists), the heading table has
    an entry for every entry of the tree: [part] at depth 0 and
    [chapter] below, so rendering it cannot raise [IndexError]. *)
Theorem shallow_outline_has_headings (ol : node) (items : list item) :
  parse_list_items tag_markup urljoin ol 0 = Some (OK items) ->
  height ol < 8 ->
  Forall
    (fun it =>
       getitem category (depth it)
       = Some (if (depth it =? 0)%Z then lit "part" else lit "chapter"))
    (all_entries items).
Proof.
  intros H Hh; apply parse_list_items_fuel_depths in H.
  eapply Forall_impl; [|exact H]; cbn beta; intros it [H1 H2].
  assert (Hc : depth it = 0%Z \/ depth it = 1%Z \/ depth it = 2%Z) by lia.
  destruct Hc as [->|[->| ->]]; reflexivity.
Qed.

End OutlineMore.

(* ================================================================== *)
(** * More on the transclusion resolver *)
(* ================================================================== *)

Lemma lstrip_Forall (P : char -> Prop) (s : pystr) :
  Forall P s -> Forall P (lstrip s).
Proof.
  induction 1 as [|c s Hc Hs IH]; simpl; [constructor|].
  destruct (isspace c); [exact IH | now constructor].
Qed.

Lemma strip_Forall (P : char -> Prop) (s : pystr) :
  Forall P s -> Forall P (strip s).
Proof.
  intros H; unfold strip, rstrip.
  now apply Forall_rev, lstrip_Forall, Forall_rev, lstrip_Forall.
Qed.

Lemma findall_without_open (s : pystr) :
  contains s (lit "{{:") = false -> findall_from 0 s = [].
Proof.
  induction s as [|c s IH]; [reflexivity|].
  cbn [contains]; intros H; apply orb_false_iff in H as [Hs Hc].
  cbn [findall_from]; unfold match_marker; rewrite Hs; auto.
Qed.

Lemma findall_marker_title (t r : pystr) :
  t <> [] ->
  Forall (fun c => c <> newline /\ c <> rbrace /\ c <> lbrace) t ->
  findall_from 0 (marker t ++ r) = t :: findall_from 0 r.
Proof.
  intros Hne Hall.
  assert (Hm : match_marker (marker t ++ r) = Some t).
  { rewrite marker_app.
    change (lazy_group (lit "}}") (t ++ rbrace :: rbrace :: r) = Some t).
    now apply lazy_group_title. }
  rewrite marker_app in *; cbn [findall_from]; rewrite Hm.
  apply (f_equal (cons t)).
  replace (length t + 4)
    with (length (lbrace :: colon :: t ++ [rbrace; rbrace]))
    by (simpl; rewrite length_app; simpl; lia).
  rewrite <- (findall_from_skip (lbrace :: colon :: t ++ [rbrace; rbrace]) r).
  simpl; now rewrite <- app_assoc.
Qed.

(** The scan of [replace] passes over a marker of another title. *)
Lemma replace_from_other_marker (t t' new r : pystr) :
  Forall (fun c => c <> rbrace) t ->
  Forall (fun c => c <> newline /\ c <> rbrace /\ c <> lbrace) t' ->
  str_eqb t' t = false ->
  replace_from (marker t) new 0 (marker t' ++ r)
  = marker t' ++ replace_from (marker t) new 0 r.
Proof.
  intros Ht Ht' E.
  assert (Hr' : Forall (fun c => c <> rbrace) t')
    by (eapply Forall_impl; [|exact Ht']; cbn beta; tauto).
  assert (Hp : plain (colon :: t' ++ [rbrace; rbrace])).
  { constructor; [discriminate|]; apply Forall_app; split.
    - eapply Forall_impl; [|exact Ht']; cbn beta; tauto.
    - repeat constructor; discriminate. }
  pose proof (startswith_titles Ht r Hr') as Hs; rewrite E in Hs.
  pose proof (replace_from_plain (lbrace :: colon :: t ++ [rbrace; rbrace])
                new r Hp) as Hpl.
  rewrite marker_app, !marker_cons.
  rewrite replace_from_here.
  replace (startswith
             (lbrace :: lbrace :: colon :: t' ++ rbrace :: rbrace :: r)
             (lbrace :: lbrace :: colon :: t ++ [rbrace; rbrace]))
    with false by (symmetry; exact Hs).
  rewrite replace_from_here.
  replace (startswith (lbrace :: colon :: t' ++ rbrace :: rbrace :: r)
             (lbrace :: lbrace :: colon :: t ++ [rbrace; rbrace]))
    with false by reflexivity.
  cbn [app]; do 2 apply (f_equal (cons lbrace)).
  cbn [app] in Hpl; rewrite <- app_assoc in Hpl; exact Hpl.
Qed.

Lemma fold_expand_match_ext (f g : pystr -> pystr) (ms : list pystr) :
  (forall m, In m ms -> f (strip m) = g (strip m)) ->
  forall content,
  fold_left (expand_match f) ms content
  = fold_left (expand_match g) ms content.
Proof.
  induction ms as [|m ms IH]; intros H content; [reflexivity|].
  cbn [fold_left]; unfold expand_match at 2 4.
  rewrite (H m (or_introl eq_refl)).
  apply IH; intros m' Hm'; apply H; now right.
Qed.

Section ResolverMore.

Variable fetch_example : pystr -> pystr.

(** X8. A body in which ["{{:"] does not occur is returned as it is,
    and nothing is fetched. *)
Theorem add_examples_without_marker (content : pystr) :
  contains content (lit "{{:") = false ->
  add_examples_to_content fetch_example content = content.
Proof.
  intros H; unfold add_examples_to_content, findall.
  now rewrite findall_without_open.
Qed.

(** X9. A marker written with whitespace around its title, between
    brace-free text, is left in place: the example is looked up under the
    stripped title, and the marker rebuilt from the stripped title does
    not occur in the body. *)
Theorem padded_marker_kept (pre t post : pystr) :
  plain pre -> plain post ->
  t <> [] ->
  Forall (fun c => c <> newline /\ c <> rbrace /\ c <> lbrace) t ->
  strip t <> t ->
  findall (pre ++ marker t ++ post) = [t]
  /\ add_examples_to_content fetch_example (pre ++ marker t ++ post)
     = pre ++ marker t ++ post.
Proof.
  intros Hpre Hpost Hne Hall Hstrip.
  assert (Hf : findall (pre ++ marker t ++ post) = [t]).
  { unfold findall; rewrite findall_plain by exact Hpre.
    rewrite findall_marker_title by assumption.
    pose proof (findall_plain [] Hpost) as Hp.
    rewrite app_nil_r in Hp; now rewrite Hp. }
  split; [exact Hf|].
  unfold add_examples_to_content; rewrite Hf; cbn [fold_left].
  unfold expand_match, replace; rewrite marker_cons, <- marker_cons.
  assert (E : str_eqb t (strip t) = false).
  { destruct (str_eqb t (strip t)) eqn:E; [|reflexivity].
    apply str_eqb_eq in E; congruence. }
  assert (Hs : Forall (fun c => c <> rbrace) (strip t)).
  { apply strip_Forall; eapply Forall_impl; [|exact Hall]; cbn beta; tauto. }
  rewrite marker_cons, replace_from_plain, <- marker_cons by exact Hpre.
  rewrite replace_from_other_marker by assumption.
  pose proof (replace_from_plain (lbrace :: colon :: strip t ++ [rbrace; rbrace])
                (fetch_example (strip t)) [] Hpost) as Hp.
  rewrite app_nil_r in Hp; rewrite <- marker_cons in Hp.
  rewrite Hp; cbn [replace_from]; now rewrite app_nil_r.
Qed.

(** X10. The result depends on the fetch only through the examples of
    the stripped titles matched in the body given: two fetches that agree
    on those give the same result (what an example contains is never
    looked up in turn). *)
Theorem add_examples_fetch_ext (fetch_example' : pystr -> pystr)
  (content : pystr) :
  (forall m, In m (findall content) ->
             fetch_example (strip m) = fetch_example' (strip m)) ->
  add_examples_to_content fetch_example content
  = add_examples_to_content fetch_example' content.
Proof. intros H; now apply fold_expand_match_ext. Qed.

End ResolverMore.

(* ================================================================== *)
(** * The link pattern *)
(* ================================================================== *)

Lemma sub_url_from_here (c : char) (r : pystr) :
  sub_url_from 0 (c :: r)
  = match match_url (c :: r) with
    | Some (n, g) => g ++ sub_url_from (n - 1) r
    | None => c :: sub_url_from 0 r
    end.
Proof. reflexivity. Qed.

Lemma sub_url_from_skip (p r : pystr) :
  sub_url_from (length p) (p ++ r) = sub_url_from 0 r.
Proof. induction p as [|c p IH]; [reflexivity | exact IH]. Qed.

Lemma match_url_other (c : char) (r : pystr) :
  c <> backslash -> match_url (c :: r) = None.
Proof.
  intros Hc; unfold match_url.
  change (lit "\url{") with (backslash :: lit "url{").
  now rewrite (startswith_head _ _ Hc).
Qed.

(** The lazy group before a closing brace stops at the end of a text
    without brace. *)
Lemma lazy_group_brace (t r : pystr) :
  t <> [] ->
  Forall (fun c => c <> newline /\ c <> rbrace) t ->
  lazy_group (lit "}") (t ++ rbrace :: r) = Some t.
Proof.
  change (lit "}") with [rbrace].
  induction t as [|c t IH]; intros Hne Hall; [contradiction|].
  inversion Hall as [|? ? [Hnl _] Ht]; subst.
  cbn [app lazy_group].
  destruct (N.eqb_spec c newline); [contradiction|].
  destruct t as [|c' t'].
  - reflexivity.
  - inversion Ht as [|? ? [_ Hrb] _]; subst.
    cbn [app]; rewrite (startswith_head _ _ Hrb).
    cbn [app] in IH; rewrite IH; [reflexivity | discriminate | exact Ht].
Qed.

Lemma url_target_link (u t r : pystr) :
  u <> [] -> t <> [] ->
  Forall (fun c => c <> newline /\ c <> rbrace) u ->
  Forall (fun c => c <> newline /\ c <> rbrace) t ->
  url_target (u ++ rbrace :: lbrace :: t ++ rbrace :: r)
  = Some (length u, t).
Proof.
  intros Hu Ht Hau Hat.
  induction u as [|c u IH]; [contradiction|].
  inversion Hau as [|? ? [Hnl _] Hau']; subst.
  cbn [app url_target].
  destruct (N.eqb_spec c newline); [contradiction|].
  destruct u as [|c' u'].
  - cbn [app].
    change (startswith (rbrace :: lbrace :: t ++ rbrace :: r) (lit "}{"))
      with true.
    cbn iota; cbn [skipn].
    now rewrite (lazy_group_brace r Ht Hat).
  - inversion Hau' as [|? ? [_ Hrb] _]; subst.
    cbn [app].
    change (lit "}{") with [rbrace; lbrace].
    rewrite (startswith_head _ _ Hrb).
    cbn [app] in IH; rewrite IH; [reflexivity | discriminate | exact Hau'].
Qed.

(** X11. Text without a backslash goes through the link substitution
    unchanged. *)
Theorem sub_url_without_backslash (s : pystr) :
  Forall (fun c => c <> backslash) s -> sub_url s = s.
Proof.
  unfold sub_url; induction 1 as [|c s Hc _ IH]; [reflexivity|].
  now rewrite sub_url_from_here, (match_url_other _ Hc), IH.
Qed.

(** X12. A link [\url{u}{t}] whose two arguments are non-empty, on one
    line and without closing brace is replaced by its second argument
    [t], and the scan goes on behind it. *)
Theorem sub_url_link (u t r : pystr) :
  u <> [] -> t <> [] ->
  Forall (fun c => c <> newline /\ c <> rbrace) u ->
  Forall (fun c => c <> newline /\ c <> rbrace) t ->
  sub_url (lit "\url{" ++ u ++ lit "}{" ++ t ++ lit "}" ++ r)
  = t ++ sub_url r.
Proof.
  intros Hu Ht Hau Hat; unfold sub_url.
  change (lit "\url{" ++ u ++ lit "}{" ++ t ++ lit "}" ++ r)
    with (backslash
          :: (lit "url{" ++ u ++ rbrace :: lbrace :: t ++ rbrace :: r)).
  rewrite sub_url_from_here.
  assert (Hm : match_url
                 (backslash
                  :: (lit "url{" ++ u ++ rbrace :: lbrace :: t ++ rbrace :: r))
               = Some (5 + length u + 2 + length t + 1, t)).
  { unfold match_url.
    change (startswith
              (backslash
               :: (lit "url{" ++ u ++ rbrace :: lbrace :: t ++ rbrace :: r))
              (lit "\url{")) with true.
    cbn iota.
    change (skipn 5
              (backslash
               :: (lit "url{" ++ u ++ rbrace :: lbrace :: t ++ rbrace :: r)))
      with (u ++ rbrace :: lbrace :: t ++ rbrace :: r).
    now rewrite (url_target_link r Hu Ht Hau Hat). }
  rewrite Hm; apply (f_equal (app t)).
  replace (5 + length u + 2 + length t + 1 - 1)
    with (length (lit "url{" ++ u ++ rbrace :: lbrace :: t ++ [rbrace]))
    by (rewrite !length_app; cbn [length]; rewrite length_app;
        cbn [length lit list_ascii_of_string map]; lia).
  replace (lit "url{" ++ u ++ rbrace :: lbrace :: t ++ rbrace :: r)
    with ((lit "url{" ++ u ++ rbrace :: lbrace :: t ++ [rbrace]) ++ r).
  - apply sub_url_from_skip.
  - rewrite <- !app_assoc; cbn [app]; do 2 f_equal.
    rewrite <- app_assoc; reflexivity.
Qed.

(* ================================================================== *)
(** * More on the tree renderer *)
(* ================================================================== *)

Section StoreFacts.

Variable fetch_example : pystr -> pystr.

(** The loop over the pages, one page further. *)
Lemma wiki_content_of_snoc (pages : list page) (p : page) (t : pystr) :
  wiki_content_of fetch_example (pages ++ [p]) t
  = (wiki_content <- wiki_content_of fetch_example pages t ;;
     match page_title p with
     | Some t' =>
         if str_eqb t' t
         then match page_text p with
              | Some text =>
                  OK (add_examples_to_content fetch_example (strip text))
              | None => Raise AttributeError
              end
         else OK wiki_content
     | None => OK wiki_content
     end).
Proof. unfold wiki_content_of; now rewrite fold_left_app. Qed.

Lemma wiki_content_of_raise (pages : list page) (t : pystr) (e : exn) :
  wiki_content_of fetch_example pages t = Raise e -> e = AttributeError.
Proof.
  induction pages as [|p pages IH] using rev_ind; [discriminate|].
  rewrite wiki_content_of_snoc.
  destruct (wiki_content_of fetch_example pages t) as [wc|e'];
    [|intros H; inversion H; subst; now apply IH].
  cbn [bind]; destruct (page_title p) as [t'|]; [|discriminate].
  destruct (str_eqb t' t); [|discriminate].
  destruct (page_text p); [discriminate|congruence].
Qed.

Lemma wiki_content_of_texts (pages : list page) (t : pystr) :
  (forall q, In q pages -> page_title q = Some t -> page_text q <> None) ->
  exists wiki_content,
    wiki_content_of fetch_example pages t = OK wiki_content.
Proof.
  induction pages as [|p pages IH] using rev_ind; intros H;
    [now exists []|].
  rewrite wiki_content_of_snoc.
  destruct IH as [wc Hwc];
    [intros q Hq; apply H, in_or_app; now left|].
  rewrite Hwc; cbn [bind].
  destruct (page_title p) as [t'|] eqn:Ht; [|now exists wc].
  destruct (str_eqb t' t) eqn:E; [|now exists wc].
  apply str_eqb_eq in E; subst t'.
  destruct (page_text p) as [text|] eqn:Hx; [eexists; reflexivity|].
  exfalso; apply (H p); [apply in_or_app; right; now left | exact Ht | exact Hx].
Qed.

Lemma wiki_content_of_after (pages post : list page) (t : pystr)
  (r : res pystr) :
  wiki_content_of fetch_example pages t = r ->
  (forall q, In q post -> page_title q <> Some t) ->
  (r = Raise AttributeError \/ exists wc, r = OK wc) ->
  wiki_content_of fetch_example (pages ++ post) t = r.
Proof.
  intros Hr; induction post as [|q post IH] using rev_ind; intros Hq Hcase.
  - now rewrite app_nil_r.
  - rewrite app_assoc, wiki_content_of_snoc, IH;
      [|intros q' Hq'; apply Hq, in_or_app; now left | exact Hcase].
    destruct r as [wc|e]; [|reflexivity]; cbn [bind].
    destruct (page_title q) as [t'|] eqn:Ht; [|reflexivity].
    destruct (str_eqb t' t) eqn:E; [|reflexivity].
    apply str_eqb_eq in E; subst t'.
    exfalso; apply (Hq q); [apply in_or_app; right; now left | exact Ht].
Qed.

Lemma wiki_content_of_sticky (pages post : list page) (t : pystr) :
  wiki_content_of fetch_example pages t = Raise AttributeError ->
  wiki_content_of fetch_example (pages ++ post) t = Raise AttributeError.
Proof.
  intros Hr; induction post as [|q post IH] using rev_ind.
  - now rewrite app_nil_r.
  - now rewrite app_assoc, wiki_content_of_snoc, IH.
Qed.

(** X13. When several pages of the export carry the title (all of them
    with a text), the body comes from the last one. *)
Theorem last_page_wins (pre post : list page) (p : page) (t text : pystr) :
  (forall q, In q pre -> page_title q = Some t -> page_text q <> None) ->
  page_title p = Some t ->
  page_text p = Some text ->
  (forall q, In q post -> page_title q <> Some t) ->
  wiki_content_of fetch_example (pre ++ p :: post) t
  = OK (add_examples_to_content fetch_example (strip text)).
Proof.
  intros Hpre Ht Hx Hpost.
  change (pre ++ p :: post) with (pre ++ [p] ++ post); rewrite app_assoc.
  apply wiki_content_of_after; [|exact Hpost | right; eexists; reflexivity].
  rewrite wiki_content_of_snoc.
  destruct (wiki_content_of_texts _ Hpre) as [wc Hwc]; rewrite Hwc.
  cbn [bind]; now rewrite Ht, str_eqb_refl, Hx.
Qed.

Lemma wiki_content_of_empty_text (pages : list page) (p : page) (t : pystr) :
  In p pages -> page_title p = Some t -> page_text p = None ->
  wiki_content_of fetch_example pages t = Raise AttributeError.
Proof.
  intros Hin Ht Hx; apply in_split in Hin as (pre & post & ->).
  change (pre ++ p :: post) with (pre ++ [p] ++ post); rewrite app_assoc.
  apply wiki_content_of_sticky; rewrite wiki_content_of_snoc.
  destruct (wiki_content_of fetch_example pre t) as [wc|e] eqn:E.
  - cbn [bind]; now rewrite Ht, str_eqb_refl, Hx.
  - apply wiki_content_of_raise in E; now subst.
Qed.

End StoreFacts.

Section RendererMore.

Variable isalnum : char -> bool.
Variable convert_text : pystr -> pystr -> pystr -> pystr.
Variable fetch_example : pystr -> pystr.
Variable root : list page.

Lemma chapter_content_of_raise (it : item) (e : exn) :
  chapter_content_of convert_text fetch_example root it = Raise e ->
  e = AttributeError.
Proof.
  unfold chapter_content_of; destruct (hasLink it); [|discriminate].
  destruct (wiki_content_of fetch_example root (title it)) as [wc|e'] eqn:E;
    [discriminate|].
  intros H; inversion H; subst; now apply wiki_content_of_raise in E.
Qed.

(** X14. A linked entry one of whose pages has an empty text element
    stops the run with [AttributeError] before anything is written for
    it: no chapter file, no line in the main file. *)
Theorem empty_text_page_raises (it : item) (rest : list item) (p : page)
  (w : world) :
  hasLink it = true ->
  startswith (title it) (lit ":Rummad:") = false ->
  In p root -> page_title p = Some (title it) -> page_text p = None ->
  process_structure isalnum convert_text fetch_example root (it :: rest) w
  = (w, Raise AttributeError).
Proof.
  intros Hl Hcat Hin Ht Hx.
  rewrite process_structure_cons, process_item_eq.
  unfold is_category, chapter_content_of.
  now rewrite Hcat, Hl, (wiki_content_of_empty_text fetch_example _ _ Hin Ht Hx).
Qed.

(** X15. An entry without link is rendered without looking at the
    export: its chapter file holds the heading line and nothing else. *)
Theorem unlinked_entry_heading_only (it : item) (heading : pystr)
  (w : world) :
  hasLink it = false ->
  startswith (title it) (lit ":Rummad:") = false ->
  getitem category (depth it) = Some heading ->
  process_item isalnum convert_text fetch_example root it w
  = process_structure isalnum convert_text fetch_example root (children it)
      {| files := files w ++ [(filepath isalnum it, heading_line heading it)];
         manifest := manifest w ++ [include_line isalnum it] |}.
Proof.
  intros Hl Hcat Hh.
  rewrite process_item_eq; unfold is_category, chapter_content_of.
  rewrite Hcat, Hl, Hh; cbn [bind].
  unfold unit_text; change (body_text (sub_url [])) with (@nil char).
  now rewrite app_nil_r.
Qed.

(** X16. Rendering a list of entries followed by another renders the
    first list and, when that completes, the second from where the first
    left off; an exception in the first list is the result. *)
Theorem process_structure_app (a b : list item) (w : world) :
  process_structure isalnum convert_text fetch_example root (a ++ b) w
  = match
      process_structure isalnum convert_text fetch_example root a w
    with
    | (w', OK _) =>
        process_structure isalnum convert_text fetch_example root b w'
    | (w', Raise e) => (w', Raise e)
    end.
Proof.
  revert w; induction a as [|it a IH]; intros w; [reflexivity|].
  cbn [app]; rewrite !process_structure_cons.
  destruct (process_item isalnum convert_text fetch_example root it w)
    as [w1 [[]|e]]; [apply IH | reflexivity].
Qed.

Lemma run_outcome_nil (w : world) :
  run_outcome isalnum convert_text fetch_example root [] w w (OK tt).
Proof.
  exists [], []; repeat split; simpl; now rewrite ?app_nil_r.
Qed.

Lemma run_outcome_app_ok (a b : list item) (w w1 w2 : world) (r : res unit) :
  run_outcome isalnum convert_text fetch_example root a w w1 (OK tt) ->
  run_outcome isalnum convert_text fetch_example root b w1 w2 r ->
  run_outcome isalnum convert_text fetch_example root (a ++ b) w w2 r.
Proof.
  intros (da & ra & Ha & Hra & Hma & -> & Hfa) (db & rb & Hb & Hrb & Hmb & Hr).
  rewrite app_nil_r in Ha; subst a b.
  exists (da ++ db), rb; split; [now rewrite app_assoc|].
  split; [apply Forall_app; now split|]; split.
  - now rewrite Hmb, Hma, map_app, app_assoc.
  - destruct r as [[]|e].
    + destruct Hr as [-> Hfb]; split; [reflexivity|].
      now rewrite Hfb, Hfa, map_app, app_assoc.
    + destruct Hr as (bad & rest' & -> & Hbad & Hfb).
      exists bad, rest'; repeat split; auto.
      now rewrite Hfb, Hfa, map_app, !app_assoc.
Qed.

Lemma run_outcome_app_raise (a b : list item) (w w1 : world) (e : exn) :
  run_outcome isalnum convert_text fetch_example root a w w1 (Raise e) ->
  run_outcome isalnum convert_text fetch_example root (a ++ b) w w1 (Raise e).
Proof.
  intros (da & ra & Ha & Hra & Hma & bad & rest' & -> & Hbad & Hfa); subst a.
  exists da, (bad :: rest' ++ b); split; [now rewrite <- app_assoc|].
  split; [exact Hra|]; split; [exact Hma|].
  exists bad, (rest' ++ b); auto.
Qed.

Lemma process_structure_outcome_from (structure : list item) :
  Forall
    (fun it => forall w,
       run_outcome isalnum convert_text fetch_example root
         (render_order_item it) w
         (fst (process_item isalnum convert_text fetch_example root it w))
         (snd (process_item isalnum convert_text fetch_example root it w)))
    structure ->
  forall w,
  run_outcome isalnum convert_text fetch_example root
    (render_order structure) w
    (fst (process_structure isalnum convert_text fetch_example root
            structure w))
    (snd (process_structure isalnum convert_text fetch_example root
            structure w)).
Proof.
  induction 1 as [|it rest Hit _ IH]; intros w; [apply run_outcome_nil|].
  rewrite process_structure_cons; unfold render_order; cbn [flat_map].
  specialize (Hit w).
  destruct (process_item isalnum convert_text fetch_example root it w)
    as [w1 [[]|e]]; cbn [fst snd] in *.
  - eapply run_outcome_app_ok; [exact Hit | apply IH].
  - now apply run_outcome_app_raise.
Qed.

Lemma process_item_outcome (it : item) :
  forall w,
  run_outcome isalnum convert_text fetch_example root
    (render_order_item it) w
    (fst (process_item isalnum convert_text fetch_example root it w))
    (snd (process_item isalnum convert_text fetch_example root it w)).
Proof.
  induction it as [t u h d cs IH] using item_ind_nested; intros w.
  rewrite process_item_eq, render_order_item_eq.
  destruct (is_category (Item t u h d cs)); [apply run_outcome_nil|].
  destruct (chapter_content_of convert_text fetch_example root
              (Item t u h d cs)) as [content|e] eqn:Hc.
  - destruct (getitem category (depth (Item t u h d cs))) as [heading|]
      eqn:Hh.
    + change (Item t u h d cs :: render_order (children (Item t u h d cs)))
        with ([Item t u h d cs] ++ render_order cs).
      eapply run_outcome_app_ok;
        [|exact (process_structure_outcome_from IH _)].
      exists [Item t u h d cs], []; split; [reflexivity|].
      split; [repeat constructor; eexists; eassumption|].
      repeat split; cbn [map fst files manifest]; now rewrite ?map_app.
    + cbn [fst snd].
      exists [], (Item t u h d cs :: render_order cs); split; [reflexivity|].
      split; [constructor|].
      split; [cbn; now rewrite app_nil_r|].
      exists (Item t u h d cs), (render_order cs); split; [reflexivity|].
      split; [|cbn [files map]; now rewrite map_app].
      intros [_ [heading Hheading]]; congruence.
  - cbn [fst snd]; pose proof (chapter_content_of_raise _ Hc) as ->.
    exists [], (Item t u h d cs :: render_order cs); split; [reflexivity|].
    split; [constructor|].
    split; [cbn; now rewrite app_nil_r|].
    exists (Item t u h d cs), (render_order cs); split; [reflexivity|].
    split; [|cbn; now rewrite !app_nil_r].
    intros [[content Hcontent] _]; congruence.
Qed.

Lemma process_structure_run (structure : list item) (w : world) :
  run_outcome isalnum convert_text fetch_example root
    (render_order structure) w
    (fst (process_structure isalnum convert_text fetch_example root
            structure w))
    (snd (process_structure isalnum convert_text fetch_example root
            structure w)).
Proof.
  apply process_structure_outcome_from, Forall_forall.
  intros it _; apply process_item_outcome.
Qed.

(** X17. Whether the run completes or raises, what it has written is a
    beginning of the rendering order: the entries before the one that
    raised are renderable and have their chapter file and their line in
    the main file, in order, the entry that raised is not renderable and
    has no line, and its chapter file was opened only when the exception
    is the [IndexError] of the heading table; nothing after it was
    touched. *)
Theorem process_structure_outcome (structure : list item) (w : world) :
  run_outcome isalnum convert_text fetch_example root
    (render_order structure) w
    (fst (process_structure isalnum convert_text fetch_example root
            structure w))
    (snd (process_structure isalnum convert_text fetch_example root
            structure w)).
Proof. exact (process_structure_run structure w). Qed.

End RendererMore.

(* ================================================================== *)
(** * The build *)
(* ================================================================== *)

Section BuildFacts.

Variable isalnum : char -> bool.
Variable convert_text : pystr -> pystr -> pystr -> pystr.
Variable fetch_example : pystr -> pystr.
Variable root : list page.
Variable toc : list item.

(** The build, once [LaTeX] holds a class file that is not empty. *)
Lemma main_with_style (d : fs) (o : out_dir) (c : pystr) :
  output_dir d = Some o -> style_cls o = Some c -> c <> [] ->
  main isalnum convert_text fetch_example root toc d
  = write_main_file isalnum convert_text fetch_example root toc
      {| data_dir := true;
         output_dir :=
           Some {| style_cls := Some c; main_tex := None;
                   chapters := Some []; other := [] |} |}.
Proof.
  intros Ho Hs Hc; unfold main, setup_directories; rewrite Ho, Hs.
  destruct c as [|x c]; [contradiction | reflexivity].
Qed.

Lemma write_main_file_shape (c : pystr) :
  exists m fl e,
    write_main_file isalnum convert_text fetch_example root toc
      {| data_dir := true;
         output_dir :=
           Some {| style_cls := Some c; main_tex := None;
                   chapters := Some []; other := [] |} |}
    = ({| data_dir := true;
          output_dir :=
            Some {| style_cls := Some c; main_tex := Some m;
                    chapters := Some fl; other := [] |} |},
       e).
Proof.
  unfold write_main_file; cbn [output_dir chapters style_cls other data_dir].
  destruct (process_structure isalnum convert_text fetch_example root toc
              {| files := []; manifest := [preamble] |}) as [w r].
  do 3 eexists; reflexivity.
Qed.

(** X18. With a non-empty [LaTeX/style.cls] and an outline in which
    every rendered entry is renderable, the build completes and leaves in
    [LaTeX] the class file with its content, the main file made of the
    preamble, one include line per rendered entry in rendering order and
    the closing, the chapter files in that order, and nothing else of
    what was there before. *)
Theorem main_rebuild (d : fs) (o : out_dir) (c : pystr) :
  output_dir d = Some o -> style_cls o = Some c -> c <> [] ->
  Forall (renderable convert_text fetch_example root) (render_order toc) ->
  exists fl,
    main isalnum convert_text fetch_example root toc d
    = ({| data_dir := true;
          output_dir :=
            Some {| style_cls := Some c;
                    main_tex :=
                      Some (preamble
                            ++ concat (map (include_line isalnum)
                                         (render_order toc))
                            ++ closing);
                    chapters := Some fl;
                    other := [] |} |},
       None)
    /\ map fst fl = map (filepath isalnum) (render_order toc).
Proof.
  intros Ho Hs Hc Hr; rewrite (main_with_style _ Ho Hs Hc).
  unfold write_main_file; cbn [output_dir chapters style_cls other data_dir].
  destruct (@process_structure_completes isalnum _ _ _ _ Hr
              {| files := []; manifest := [preamble] |}) as [w Hw].
  rewrite Hw; apply process_structure_ok in Hw as [Hm Hf].
  cbn [manifest files map app] in Hm, Hf.
  exists (files w); split; [|exact Hf].
  rewrite Hm; cbn [concat app]; now rewrite app_assoc.
Qed.

(** X19. Without [LaTeX], or with a [LaTeX] that holds no class file,
    the build raises for every outline ([FileNotFoundError] when the main
    file is opened, [UnboundLocalError] when [style_cls_content] is
    tested) and writes neither a main file nor a chapter; a [LaTeX] that
    was there has been emptied. *)
Theorem main_cannot_bootstrap (d : fs) :
  (output_dir d = None
   \/ exists o, output_dir d = Some o /\ style_cls o = None) ->
  main isalnum convert_text fetch_example root toc d
  = match output_dir d with
    | None => ({| data_dir := true; output_dir := None |},
               Some FileNotFoundError)
    | Some _ => ({| data_dir := true; output_dir := Some fresh_out_dir |},
                 Some UnboundLocalError)
    end.
Proof.
  intros [Ho|(o & Ho & Hs)]; unfold main, setup_directories; rewrite Ho;
    [reflexivity | now rewrite Hs].
Qed.

(** X20. An empty [LaTeX/style.cls] is read but not written back: the
    first run gets past the setup of the directories without exception,
    so that its outcome is that of the rendering (it completes when every
    entry to be rendered is renderable), and it leaves [LaTeX] without
    class file; run again on what it left, the build raises
    [UnboundLocalError]. *)
Theorem empty_style_cls_lost (d : fs) (o : out_dir) :
  output_dir d = Some o -> style_cls o = Some [] ->
  snd (setup_directories d) = None
  /\ snd (main isalnum convert_text fetch_example root toc d)
     = match
         snd (process_structure isalnum convert_text fetch_example root toc
                {| files := []; manifest := [preamble] |})
       with
       | OK _ => None
       | Raise e => Some (Reraised e)
       end
  /\ (Forall (renderable convert_text fetch_example root) (render_order toc)
      -> snd (main isalnum convert_text fetch_example root toc d) = None)
  /\ (exists o', output_dir
                   (fst (main isalnum convert_text fetch_example root toc d))
                 = Some o' /\ style_cls o' = None)
  /\ snd (main isalnum convert_text fetch_example root toc
            (fst (main isalnum convert_text fetch_example root toc d)))
     = Some UnboundLocalError.
Proof.
  intros Ho Hs.
  assert (Hsetup : setup_directories d
                   = ({| data_dir := true; output_dir := Some fresh_out_dir |},
                      None))
    by (unfold setup_directories; now rewrite Ho, Hs).
  split; [now rewrite Hsetup|].
  unfold main at 1 2 3 5; rewrite Hsetup.
  unfold write_main_file, fresh_out_dir.
  cbn [output_dir chapters style_cls other data_dir].
  pose proof (@process_structure_completes isalnum convert_text fetch_example
                root toc) as Hcomp.
  destruct (process_structure isalnum convert_text fetch_example root toc
              {| files := []; manifest := [preamble] |}) as [w r] eqn:Hp.
  cbn [fst snd]; split; [reflexivity|]; split.
  - intros Hr; destruct (Hcomp Hr {| files := []; manifest := [preamble] |})
      as [w' Hw'].
    rewrite Hp in Hw'; injection Hw' as _ ->; reflexivity.
  - split; [eexists; split; reflexivity | reflexivity].
Qed.

(** X21. With a non-empty [LaTeX/style.cls], running the build again
    on what it left gives the same directory and the same outcome. *)
Theorem main_repeatable (d : fs) (o : out_dir) (c : pystr) :
  output_dir d = Some o -> style_cls o = Some c -> c <> [] ->
  main isalnum convert_text fetch_example root toc
    (fst (main isalnum convert_text fetch_example root toc d))
  = main isalnum convert_text fetch_example root toc d.
Proof.
  intros Ho Hs Hc; rewrite (main_with_style _ Ho Hs Hc).
  destruct (write_main_file_shape c) as (m & fl & e & Hw).
  rewrite Hw; cbn [fst].
  erewrite main_with_style; [exact Hw | reflexivity | reflexivity | exact Hc].
Qed.

(** X22. When some entry to be rendered is not renderable, the build
    raises the exception of the renderer, and the main file it leaves
    has the preamble and the include lines of the entries rendered before
    the failing one, but no closing [\end{document}]. *)
Theorem main_interrupted (d : fs) (o : out_dir) (c : pystr) :
  output_dir d = Some o -> style_cls o = Some c -> c <> [] ->
  ~ Forall (renderable convert_text fetch_example root) (render_order toc) ->
  exists done bad rest e fl,
    render_order toc = done ++ bad :: rest
    /\ Forall (renderable convert_text fetch_example root) done
    /\ ~ renderable convert_text fetch_example root bad
    /\ main isalnum convert_text fetch_example root toc d
       = ({| data_dir := true;
             output_dir :=
               Some {| style_cls := Some c;
                       main_tex :=
                         Some (preamble
                               ++ concat (map (include_line isalnum) done));
                       chapters := Some fl;
                       other := [] |} |},
          Some (Reraised e)).
Proof.
  intros Ho Hs Hc Hnr; rewrite (main_with_style _ Ho Hs Hc).
  unfold write_main_file; cbn [output_dir chapters style_cls other data_dir].
  pose proof (process_structure_run isalnum convert_text fetch_example
                root toc {| files := []; manifest := [preamble] |}) as Hout.
  destruct (process_structure isalnum convert_text fetch_example root toc
              {| files := []; manifest := [preamble] |}) as [w r].
  cbn [fst snd] in Hout.
  destruct Hout as (done & rest & Ho' & Hdone & Hm & Hr).
  destruct r as [[]|e].
  - destruct Hr as [-> _]; rewrite app_nil_r in Ho'.
    exfalso; apply Hnr; now rewrite Ho'.
  - destruct Hr as (bad & rest' & -> & Hbad & _).
    exists done, bad, rest', e, (files w); repeat split; auto.
    rewrite Hm; cbn [manifest concat app]; now rewrite !app_nil_r.
Qed.

End BuildFacts.

(* ================================================================== *)
(** * Instances *)
(* ================================================================== *)

Lemma text_item_fields_witness :
  let outline := ol_tag [text_li "  Part one " [ol_tag [link_li "Chap" []]]] in
  let it :=
    Item (lit "Part one") [] false 0
      [Item (lit "Chap") (lit "Chap") true 1 []] in
  parse_list_items plain_markup join_path outline 0 = Some (OK [it])
  /\ hasLink it = false /\ url it = [] /\ title it = strip (lit "  Part one ").
Proof.
  intros outline it.
  assert (H : parse_list_items plain_markup join_path outline 0
              = Some (OK [it])) by reflexivity.
  split; [exact H|].
  eapply (@text_item_fields plain_markup join_path outline 0 [it] 0);
    [exact H | reflexivity | reflexivity | reflexivity | reflexivity |].
  vm_compute; discriminate.
Defined.

Lemma visited_items_linked_witness :
  let outline := ol_tag [text_li "Part" [ol_tag [link_li "Chap" []]]] in
  visited outline (link_li "Chap" [])
  /\ contents_of (link_li "Chap" []) <> []
  /\ find (link_li "Chap" []) (lit "a") <> None.
Proof.
  intros outline.
  assert (Hv : visited outline (link_li "Chap" [])).
  { eapply visited_nested;
      [apply visited_top; left; reflexivity | reflexivity | left; reflexivity]. }
  split; [exact Hv|].
  eapply (@visited_items_linked plain_markup join_path outline 0);
    [reflexivity | exact Hv].
Defined.

Lemma parsed_depths_witness :
  exists items,
    parse_list_items plain_markup join_path deep_outline 0 = Some (OK items)
    /\ Forall
         (fun it =>
            (0 <= depth it)%Z
            /\ (2 * (depth it - 0) + 2
                <= Z.of_nat (height deep_outline))%Z)
         (all_entries items).
Proof.
  destruct (parse_list_items plain_markup join_path deep_outline 0)
    as [[items|e]|] eqn:H; try (vm_compute in H; discriminate).
  exists items; split; [reflexivity|].
  exact (parsed_depths _ _ _ _ H).
Defined.

Lemma shallow_outline_has_headings_witness :
  let outline := ol_tag [text_li "Part" [ol_tag [link_li "Chap" []]]] in
  height outline < 8
  /\ exists items,
       parse_list_items plain_markup join_path outline 0 = Some (OK items)
       /\ Forall
            (fun it =>
               getitem category (depth it)
               = Some (if (depth it =? 0)%Z then lit "part"
                       else lit "chapter"))
            (all_entries items).
Proof.
  intros outline.
  assert (Hh : height outline < 8) by (vm_compute; lia).
  split; [exact Hh|].
  destruct (parse_list_items plain_markup join_path outline 0)
    as [[items|e]|] eqn:H; try (vm_compute in H; discriminate).
  exists items; split; [reflexivity|].
  exact (shallow_outline_has_headings _ _ _ H Hh).
Defined.

Lemma add_examples_without_marker_witness :
  contains (lit "A {{ brace } and: colon") (lit "{{:") = false
  /\ add_examples_to_content (fun t => t) (lit "A {{ brace } and: colon")
     = lit "A {{ brace } and: colon".
Proof.
  split; [reflexivity|].
  apply add_examples_without_marker; reflexivity.
Defined.

Lemma padded_marker_kept_witness :
  strip (lit " Example ") <> lit " Example "
  /\ findall (lit "See " ++ marker (lit " Example ") ++ lit ".")
     = [lit " Example "]
  /\ add_examples_to_content (fun _ => lit "F")
       (lit "See " ++ marker (lit " Example ") ++ lit ".")
     = lit "See " ++ marker (lit " Example ") ++ lit ".".
Proof.
  assert (Hs : strip (lit " Example ") <> lit " Example ")
    by (vm_compute; discriminate).
  split; [exact Hs|].
  apply padded_marker_kept;
    [repeat constructor; discriminate
    | repeat constructor; discriminate
    | discriminate
    | repeat constructor; discriminate
    | exact Hs].
Defined.

Lemma add_examples_fetch_ext_witness :
  add_examples_to_content (fun t => t ++ lit " {{:Other}}")
    (lit "{{:Example}}")
  = add_examples_to_content
      (fun t =>
         if str_eqb t (lit "Example") then lit "Example {{:Other}}"
         else lit "never fetched")
      (lit "{{:Example}}").
Proof.
  apply add_examples_fetch_ext.
  intros m [<-|[]]; reflexivity.
Defined.

Lemma sub_url_without_backslash_witness :
  Forall (fun c => c <> backslash) (lit "url{a}{b} stays")
  /\ sub_url (lit "url{a}{b} stays") = lit "url{a}{b} stays".
Proof.
  assert (H : Forall (fun c => c <> backslash) (lit "url{a}{b} stays"))
    by (repeat constructor; discriminate).
  split; [exact H | exact (sub_url_without_backslash H)].
Defined.

Lemma sub_url_link_witness :
  sub_url (lit "\url{" ++ lit "https://style.miraheze.org" ++ lit "}{"
           ++ lit "the wiki" ++ lit "}" ++ lit " and more")
  = lit "the wiki" ++ sub_url (lit " and more").
Proof.
  apply sub_url_link;
    [discriminate | discriminate
    | repeat constructor; discriminate
    | repeat constructor; discriminate].
Defined.

Lemma last_page_wins_witness :
  wiki_content_of (fun _ => [])
    ([{| page_title := Some (lit "Ar verb");
         page_text := Some (lit "first") |}]
     ++ {| page_title := Some (lit "Ar verb");
           page_text := Some (lit " second ") |}
     :: [{| page_title := Some (lit "Degemer");
            page_text := Some (lit "home") |}])
    (lit "Ar verb")
  = OK (lit "second").
Proof.
  change (lit "second")
    with (add_examples_to_content (fun _ => []) (strip (lit " second "))).
  apply last_page_wins;
    [ intros q [<-|[]] _; discriminate
    | reflexivity
    | reflexivity
    | intros q [<-|[]]; discriminate ].
Defined.

Lemma empty_text_page_raises_witness :
  let store := [{| page_title := Some (lit "Ar verb"); page_text := None |}] in
  process_structure ascii_alnum convert_id (fun _ => []) store
    [Item (lit "Ar verb") (lit "Ar_verb") true 1 []; leaf "D" 0] empty_world
  = (empty_world, Raise AttributeError).
Proof.
  intros store.
  eapply empty_text_page_raises;
    [reflexivity | reflexivity | left; reflexivity | reflexivity | reflexivity].
Defined.

Lemma unlinked_entry_heading_only_witness :
  process_item ascii_alnum convert_id (fun _ => lit "unused")
    [{| page_title := Some (lit "Part one");
        page_text := Some (lit "a page of that name") |}]
    (leaf "Part one" 0) empty_world
  = ({| files := [(lit "LaTeX/chapters/Part_one.tex",
                   lit "\part{Part one}" ++ [newline; newline])];
        manifest := [lit "\include{chapters/Part_one}" ++ [newline]] |},
     OK tt).
Proof.
  rewrite (@unlinked_entry_heading_only ascii_alnum convert_id
             (fun _ => lit "unused") _ (leaf "Part one" 0) (lit "part")
             empty_world eq_refl eq_refl eq_refl).
  reflexivity.
Defined.

Lemma main_rebuild_witness :
  let d :=
    {| data_dir := false;
       output_dir :=
         Some {| style_cls := Some (lit "\ProvidesClass{style}");
                 main_tex := Some (lit "old"); chapters := None;
                 other := [lit "main.pdf"] |} |} in
  exists fl,
    main ascii_alnum convert_id (fun _ => []) [] sample_structure d
    = ({| data_dir := true;
          output_dir :=
            Some {| style_cls := Some (lit "\ProvidesClass{style}");
                    main_tex :=
                      Some (preamble
                            ++ concat (map (include_line ascii_alnum)
                                         (render_order sample_structure))
                            ++ closing);
                    chapters := Some fl;
                    other := [] |} |},
       None)
    /\ map fst fl = map (filepath ascii_alnum) (render_order sample_structure).
Proof.
  intros d.
  eapply main_rebuild; [reflexivity | reflexivity | discriminate |].
  repeat constructor; eexists; reflexivity.
Defined.

Lemma main_cannot_bootstrap_witness :
  main ascii_alnum convert_id (fun _ => []) [] sample_structure
    {| data_dir := false; output_dir := None |}
  = ({| data_dir := true; output_dir := None |}, Some FileNotFoundError).
Proof.
  exact (@main_cannot_bootstrap ascii_alnum convert_id (fun _ => []) []
           sample_structure {| data_dir := false; output_dir := None |}
           (or_introl eq_refl)).
Defined.

Lemma empty_style_cls_lost_witness :
  let d :=
    {| data_dir := true;
       output_dir :=
         Some {| style_cls := Some []; main_tex := None;
                 chapters := Some []; other := [] |} |} in
  snd (setup_directories d) = None
  /\ snd (main ascii_alnum convert_id (fun _ => []) [] sample_structure d)
     = None
  /\ snd (main ascii_alnum convert_id (fun _ => []) [] sample_structure
            (fst (main ascii_alnum convert_id (fun _ => []) []
                    sample_structure d)))
     = Some UnboundLocalError.
Proof.
  intros d.
  assert (Hr : Forall (renderable convert_id (fun _ => []) [])
                 (render_order sample_structure))
    by (repeat constructor; eexists; reflexivity).
  destruct (@empty_style_cls_lost ascii_alnum convert_id (fun _ => [])
              [] sample_structure d _ eq_refl eq_refl)
    as (H1 & _ & H3 & _ & H5).
  exact (conj H1 (conj (H3 Hr) H5)).
Defined.

Lemma main_repeatable_witness :
  let d :=
    {| data_dir := true;
       output_dir :=
         Some {| style_cls := Some (lit "\ProvidesClass{style}");
                 main_tex := None; chapters := Some [];
                 other := [lit "main.aux"] |} |} in
  main ascii_alnum convert_id (fun _ => []) [] sample_structure
    (fst (main ascii_alnum convert_id (fun _ => []) [] sample_structure d))
  = main ascii_alnum convert_id (fun _ => []) [] sample_structure d.
Proof.
  intros d.
  eapply main_repeatable; [reflexivity | reflexivity | discriminate].
Defined.

Lemma main_interrupted_witness :
  let d :=
    {| data_dir := true;
       output_dir :=
         Some {| style_cls := Some (lit "\ProvidesClass{style}");
                 main_tex := None; chapters := Some []; other := [] |} |} in
  let toc := [leaf "A" 0; leaf "Deep" 3; leaf "D" 0] in
  ~ Forall (renderable convert_id (fun _ => []) []) (render_order toc)
  /\ exists done bad rest e fl,
       render_order toc = done ++ bad :: rest
       /\ Forall (renderable convert_id (fun _ => []) []) done
       /\ ~ renderable convert_id (fun _ => []) [] bad
       /\ main ascii_alnum convert_id (fun _ => []) [] toc d
          = ({| data_dir := true;
                output_dir :=
                  Some {| style_cls := Some (lit "\ProvidesClass{style}");
                          main_tex :=
                            Some (preamble
                                  ++ concat
                                       (map (include_line ascii_alnum) done));
                          chapters := Some fl;
                          other := [] |} |},
             Some (Reraised e)).
Proof.
  intros d toc.
  assert (Hn : ~ Forall (renderable convert_id (fun _ => []) [])
                 (render_order toc)).
  { intros H; inversion H as [|? ? _ H']; subst.
    inversion H' as [|? ? [_ [heading Hh]] _]; subst; discriminate. }
  split; [exact Hn|].
  eapply main_interrupted; [reflexivity | reflexivity | discriminate | exact Hn].
Defined.
